(** * sqlparse: the migration-script parser of sql-migrate

    A shallow embedding of [sqlparse/sqlparse.go] and the properties of
    [ParseMigration] that the specification states.

    Go strings are byte strings: they are modelled by [string], whose
    characters are the 256 byte values.  The parser's local variables
    ([statementBuf], [conditionalBuf], the four flags, the direction and the
    document [p] under construction) form the record [state]; one iteration of
    the [for scanner.Scan()] loop is the function [processLine]. *)

From Stdlib Require Import String Ascii List Bool Arith NArith Lia.
Import ListNotations.
Open Scope list_scope.
Open Scope string_scope.

(** ** Byte strings: the functions of Go's [strings] package that the parser uses *)

(** [strings.HasPrefix(s, prefix)]:
    [len(s) >= len(prefix) && s[:len(prefix)] == prefix]. *)
Fixpoint HasPrefix (s pre : string) {struct pre} : bool :=
  match pre with
  | EmptyString => true
  | String a pre' =>
      match s with
      | EmptyString => false
      | String b s' => (b =? a)%char && HasPrefix s' pre'
      end
  end.

(** [strings.HasSuffix(s, suffix)]:
    [len(s) >= len(suffix) && s[len(s)-len(suffix):] == suffix]. *)
Definition HasSuffix (s suffix : string) : bool :=
  (String.length suffix <=? String.length s)%nat
  && (substring (String.length s - String.length suffix)
                (String.length suffix) s =? suffix).

(** [s[n:]], for [n <= len(s)]. *)
Fixpoint sliceFrom (n : nat) (s : string) : string :=
  match n, s with
  | O, _ => s
  | S _, EmptyString => EmptyString
  | S k, String _ r => sliceFrom k r
  end.

(** The six ASCII bytes of [unicode.IsSpace]: tab, newline, vertical tab, form
    feed, carriage return and space. *)
Definition isAsciiSpace (c : ascii) : bool :=
  match N_of_ascii c with
  | 9 | 10 | 11 | 12 | 13 | 32 => true
  | _ => false
  end%N.

(** Third byte of a three-byte white-space rune, given its first two bytes:
    U+1680 (E1 9A 80), U+2000..U+200A (E2 80 80..8A), U+2028, U+2029
    (E2 80 A8, A9), U+202F (E2 80 AF), U+205F (E2 81 9F), U+3000 (E3 80 80). *)
Definition isSpace3 (b0 b1 b2 : N) : bool :=
  ((b0 =? 0xE1) && (b1 =? 0x9A) && (b2 =? 0x80)
   || (b0 =? 0xE2) && (b1 =? 0x80)
      && ((0x80 <=? b2) && (b2 <=? 0x8A) || (b2 =? 0xA8) || (b2 =? 0xA9)
          || (b2 =? 0xAF))
   || (b0 =? 0xE2) && (b1 =? 0x81) && (b2 =? 0x9F)
   || (b0 =? 0xE3) && (b1 =? 0x80) && (b2 =? 0x80))%N.

(** Width in bytes of the white-space rune that [s] starts with, [0] when [s]
    does not start with one.  [unicode.IsSpace] and [bufio]'s [isSpace] accept
    the same runes: the ASCII ones, U+0085 (C2 85), U+00A0 (C2 A0) and the
    three-byte ones of [isSpace3].  Their first byte is never a UTF-8
    continuation byte, so a white-space rune is found by its bytes wherever
    decoding starts. *)
Definition spaceWidth (s : string) : nat :=
  match s with
  | EmptyString => 0
  | String c0 r0 =>
      if isAsciiSpace c0 then 1
      else if (N_of_ascii c0 =? 0xC2)%N then
        match r0 with
        | String c1 _ =>
            if ((N_of_ascii c1 =? 0x85) || (N_of_ascii c1 =? 0xA0))%N
            then 2 else 0
        | EmptyString => 0
        end
      else if ((N_of_ascii c0 =? 0xE1) || (N_of_ascii c0 =? 0xE2)
               || (N_of_ascii c0 =? 0xE3))%N then
        match r0 with
        | String c1 (String c2 _) =>
            if isSpace3 (N_of_ascii c0) (N_of_ascii c1) (N_of_ascii c2)
            then 3 else 0
        | _ => 0
        end
      else 0
  end.

(** Appends one byte to a word under construction. *)
Definition snoc (w : string) (c : ascii) : string := w ++ String c EmptyString.

Definition emit (w : string) : list string :=
  match w with
  | EmptyString => []
  | _ => [w]
  end.

(** The words of [s]: its maximal runs of bytes outside white-space runes.
    [skip] counts the bytes of the current white-space rune still to pass and
    [w] is the word read so far. *)
Fixpoint wordsFrom (skip : nat) (w : string) (s : string) : list string :=
  match s with
  | EmptyString => emit w
  | String c r =>
      match skip with
      | S k => wordsFrom k w r
      | O =>
          match spaceWidth s with
          | O => wordsFrom 0 (snoc w c) r
          | S k => emit w ++ wordsFrom k EmptyString r
          end
      end
  end.

(** [strings.Fields(s)]; also the tokens that a [bufio.Scanner] with
    [bufio.ScanWords] yields on [s]. *)
Definition Fields (s : string) : list string := wordsFrom 0 EmptyString s.

(** Whether [s], after [skip] more bytes, consists of white-space runes only. *)
Fixpoint allSpaceFrom (skip : nat) (s : string) : bool :=
  match s with
  | EmptyString => true
  | String _ r =>
      match skip with
      | S k => allSpaceFrom k r
      | O =>
          match spaceWidth s with
          | O => false
          | S k => allSpaceFrom k r
          end
      end
  end.

(** Drops the leading white-space runes. *)
Fixpoint trimLeftFrom (skip : nat) (s : string) : string :=
  match s with
  | EmptyString => EmptyString
  | String _ r =>
      match skip with
      | S k => trimLeftFrom k r
      | O =>
          match spaceWidth s with
          | O => s
          | S k => trimLeftFrom k r
          end
      end
  end.

(** Drops the trailing white-space runes: the longest suffix made of them. *)
Fixpoint trimRight (s : string) : string :=
  match s with
  | EmptyString => EmptyString
  | String c r => if allSpaceFrom 0 s then EmptyString else String c (trimRight r)
  end.

(** [strings.TrimSpace(s)]. *)
Definition TrimSpace (s : string) : string := trimRight (trimLeftFrom 0 s).

(** ** Constants and data types of the package *)

Definition sqlCmdPrefix : string := "-- +migrate ".
Definition optionNoTransaction : string := "notransaction".

Record migrationStatement : Type := mkStatement {
  Statement : string;
  Loop : bool;
  Conditional : string
}.

Record ParsedMigration : Type := mkParsed {
  UpStatements : list migrationStatement;
  DownStatements : list migrationStatement;
  DisableTransactionUp : bool;
  DisableTransactionDown : bool
}.

Inductive migrationDirection : Type :=
| directionNone
| directionUp
| directionDown.

Record migrateCommand : Type := mkCommand {
  Command : string;
  Options : list string
}.

(** The errors of the package, one constructor for each [errors.New] of the
    source, named after the failure kinds of the specification. *)
Inductive error : Type :=
| ErrNotCommand
    (* "ERROR: not a sql-migrate command" *)
| ErrMalformedCommand
    (* "ERROR: incomplete migration command" *)
| ErrUnterminatedStatement (separator : string)
    (* errNoTerminator(): the message quotes LineSeparator when it is set *)
| ErrNestedStatementBlock
    (* "ERROR: Cannot begin a statement block inside a loop or conditional block" *)
| ErrNestedLoop
    (* "ERROR: Cannot begin a loop inside another loop or statement block" *)
| ErrConditionalOutsideLoop
    (* "ERROR: saw '-- +migration ConditionalBegin' outside of matching ..." *)
| ErrUnclosedConditional
    (* "... ConditionalBegin' with no matching ... ConditionalEnd' inside its loop" *)
| ErrUnterminatedStatementBlock
    (* "ERROR: saw '-- +migrate StatementBegin' with no matching '-- +migrate StatementEnd'" *)
| ErrUnterminatedLoop
    (* "ERROR: saw '-- +migrate LoopBegin' with no matching '-- +migrate LoopEnd'" *)
| ErrUnterminatedConditional
    (* "ERROR: saw '-- +migrate ConditionalBegin' with no matching '-- +migrate ConditionalEnd'" *)
| ErrNoDirectionFound
    (* "ERROR: no Up/Down annotations found, so no statements were executed. ..." *)
| ErrStream (message : string)
    (* an error of r.Seek, of r.Read, or bufio.ErrTooLong *).

(** What a call yields: the value and a nil error, a non-nil error, or a
    run-time panic. *)
Inductive result (A : Type) : Type :=
| Ok (a : A)
| Err (e : error)
| Panic (message : string).
Arguments Ok {A} a.
Arguments Err {A} e.
Arguments Panic {A} message.

Definition bind {A B : Type} (r : result A) (k : A -> result B) : result B :=
  match r with
  | Ok a => k a
  | Err e => Err e
  | Panic m => Panic m
  end.

Notation "x <- r ;; k" := (bind r (fun x => k))
  (at level 61, r at next level, right associativity).

(** ** The input stream *)

(** An [io.ReadSeeker] as [ParseMigration] observes it: whether [Seek(0, 0)]
    fails, the bytes that [Read] then delivers, and the error other than
    [io.EOF], if any, that ends them. *)
Record ReadSeeker : Type := mkReader {
  seekError : option string;
  contents : string;
  readError : option string
}.

(** [strings.NewReader(s)] (or [bytes.NewReader]): neither call fails. *)
Definition NewReader (s : string) : ReadSeeker :=
  {| seekError := None; contents := s; readError := None |}.

(** [bufio.MaxScanTokenSize]: the scanner's buffer never grows beyond it. *)
Definition MaxScanTokenSize : N := 65536.

Definition ErrTooLong : error := ErrStream "bufio.Scanner: token too long".

(** The pieces of [s] between newlines; [cur] is the piece read so far.  A
    last piece without a newline counts when it is not empty. *)
Fixpoint splitLines (cur : string) (s : string) : list string :=
  match s with
  | EmptyString => emit cur
  | String c r =>
      if (c =? "010")%char then cur :: splitLines EmptyString r
      else splitLines (snoc cur c) r
  end.

(** [dropCR] of [bufio]: removes one trailing carriage return. *)
Definition dropCR (l : string) : string :=
  if HasSuffix l (String "013" EmptyString)
  then substring 0 (String.length l - 1) l
  else l.

(** The tokens of a [bufio.Scanner] with the default [bufio.ScanLines] and the
    default buffer, and the error that [scanner.Err()] reports after them.  A
    piece of [MaxScanTokenSize] bytes or more fills the buffer before its
    newline is seen: the scanner stops there with [ErrTooLong].  (A reader
    that delivers its last bytes together with [io.EOF] would still get a
    final piece of exactly that size; [strings.Reader], [bytes.Reader] and
    [os.File] report [io.EOF] by a read of their own.) *)
Fixpoint scanTokens (pieces : list string) (atEnd : option error)
  : list string * option error :=
  match pieces with
  | [] => ([], atEnd)
  | l :: rest =>
      if (MaxScanTokenSize <=? N.of_nat (String.length l))%N
      then ([], Some ErrTooLong)
      else let (ts, e) := scanTokens rest atEnd in (dropCR l :: ts, e)
  end.

Definition ScanLines (r : ReadSeeker) : list string * option error :=
  scanTokens (splitLines EmptyString (contents r))
             (option_map ErrStream (readError r)).

(** ** Leaf functions of the parser *)

(** The loop of [endsWithSemicolon]: [prev] is the last word seen before the
    first word that starts with a double dash. *)
Fixpoint lastCodeWord (prev : string) (words : list string) : string :=
  match words with
  | [] => prev
  | word :: rest =>
      if HasPrefix word "--" then prev else lastCodeWord word rest
  end.

(** [endsWithSemicolon(line)].  The inner scanner splits [line] into words;
    a line that [ParseMigration] passes is shorter than [MaxScanTokenSize], so
    that scanner never runs out of buffer. *)
Definition endsWithSemicolon (line : string) : bool :=
  HasSuffix (lastCodeWord EmptyString (Fields line)) ";".

(** [(c *migrateCommand) HasOption(opt)]. *)
Fixpoint hasOptionIn (options : list string) (opt : string) : bool :=
  match options with
  | [] => false
  | specifiedOption :: rest =>
      if specifiedOption =? opt then true else hasOptionIn rest opt
  end.

Definition HasOption (c : migrateCommand) (opt : string) : bool :=
  hasOptionIn (Options c) opt.

(** [parseCommand(line)]. *)
Definition parseCommand (line : string) : result migrateCommand :=
  if negb (HasPrefix line sqlCmdPrefix) then Err ErrNotCommand
  else
    match Fields (sliceFrom (String.length sqlCmdPrefix) line) with
    | [] => Err ErrMalformedCommand
    | name :: options => Ok {| Command := name; Options := options |}
    end.

(** ** The block state machine *)

(** The local variables of [ParseMigration]; [p] is the document that the
    call builds through its pointer. *)
Record state : Type := mkState {
  p : ParsedMigration;
  statementBuf : string;
  conditionalBuf : string;
  statementEnded : bool;
  ignoreSemicolons : bool;
  currentDirection : migrationDirection;
  isLoop : bool;
  isConditional : bool
}.

(** The state before the first line: the direction starts as [directionUp]
    ("For flyway script compatibility"). *)
Definition initialState : state :=
  {| p := {| UpStatements := []; DownStatements := [];
             DisableTransactionUp := false; DisableTransactionDown := false |};
     statementBuf := ""; conditionalBuf := "";
     statementEnded := false; ignoreSemicolons := false;
     currentDirection := directionUp;
     isLoop := false; isConditional := false |}.

(** Assignments to one variable. *)
Definition setP (st : state) (d : ParsedMigration) : state :=
  mkState d (statementBuf st) (conditionalBuf st) (statementEnded st)
          (ignoreSemicolons st) (currentDirection st) (isLoop st)
          (isConditional st).

Definition setStatementBuf (st : state) (b : string) : state :=
  mkState (p st) b (conditionalBuf st) (statementEnded st)
          (ignoreSemicolons st) (currentDirection st) (isLoop st)
          (isConditional st).

Definition setConditionalBuf (st : state) (b : string) : state :=
  mkState (p st) (statementBuf st) b (statementEnded st)
          (ignoreSemicolons st) (currentDirection st) (isLoop st)
          (isConditional st).

Definition setStatementEnded (st : state) (b : bool) : state :=
  mkState (p st) (statementBuf st) (conditionalBuf st) b
          (ignoreSemicolons st) (currentDirection st) (isLoop st)
          (isConditional st).

Definition setIgnoreSemicolons (st : state) (b : bool) : state :=
  mkState (p st) (statementBuf st) (conditionalBuf st) (statementEnded st)
          b (currentDirection st) (isLoop st) (isConditional st).

Definition setCurrentDirection (st : state) (d : migrationDirection) : state :=
  mkState (p st) (statementBuf st) (conditionalBuf st) (statementEnded st)
          (ignoreSemicolons st) d (isLoop st) (isConditional st).

Definition setIsLoop (st : state) (b : bool) : state :=
  mkState (p st) (statementBuf st) (conditionalBuf st) (statementEnded st)
          (ignoreSemicolons st) (currentDirection st) b (isConditional st).

Definition setIsConditional (st : state) (b : bool) : state :=
  mkState (p st) (statementBuf st) (conditionalBuf st) (statementEnded st)
          (ignoreSemicolons st) (currentDirection st) (isLoop st) b.

(** [p.DisableTransactionUp = true] and [p.DisableTransactionDown = true]. *)
Definition disableUp (d : ParsedMigration) : ParsedMigration :=
  mkParsed (UpStatements d) (DownStatements d) true (DisableTransactionDown d).

Definition disableDown (d : ParsedMigration) : ParsedMigration :=
  mkParsed (UpStatements d) (DownStatements d) (DisableTransactionUp d) true.

(** [p.UpStatements = append(p.UpStatements, s)] and its Down twin. *)
Definition appendUp (d : ParsedMigration) (s : migrationStatement)
  : ParsedMigration :=
  mkParsed (UpStatements d ++ [s]) (DownStatements d)
           (DisableTransactionUp d) (DisableTransactionDown d).

Definition appendDown (d : ParsedMigration) (s : migrationStatement)
  : ParsedMigration :=
  mkParsed (UpStatements d) (DownStatements d ++ [s])
           (DisableTransactionUp d) (DisableTransactionDown d).

(** [buf.WriteString(line + "\n")]; a [bytes.Buffer] write returns a nil error. *)
Definition writeLine (buf line : string) : string :=
  buf ++ line ++ String "010" "".

(** [len(strings.TrimSpace(buf.String())) > 0]. *)
Definition holdsText (buf : string) : bool :=
  (0 <? String.length (TrimSpace buf))%nat.

Section Parser.

(** The package variable [LineSeparator]: read, never written, by a parse. *)
Variable LineSeparator : string.

(** [errNoTerminator()]. *)
Definition errNoTerminator : error := ErrUnterminatedStatement LineSeparator.

(** The [switch cmd.Command] of the loop body.  A Go [case] does not fall
    through, with or without its [break]; a name that no [case] lists changes
    nothing. *)
Definition handleCommand (st : state) (cmd : migrateCommand) : result state :=
  let name := Command cmd in
  if name =? "Up" then
    if holdsText (statementBuf st) then Err errNoTerminator
    else
      let st := setCurrentDirection st directionUp in
      Ok (if HasOption cmd optionNoTransaction
          then setP st (disableUp (p st)) else st)
  else if name =? "Down" then
    if holdsText (statementBuf st) then Err errNoTerminator
    else
      let st := setCurrentDirection st directionDown in
      Ok (if HasOption cmd optionNoTransaction
          then setP st (disableDown (p st)) else st)
  else if name =? "StatementBegin" then
    if isLoop st || isConditional st then Err ErrNestedStatementBlock
    else
      match currentDirection st with
      | directionNone => Ok st
      | _ => Ok (setIgnoreSemicolons st true)
      end
  else if name =? "StatementEnd" then
    if isLoop st || isConditional st then Ok st
    else
      match currentDirection st with
      | directionNone => Ok st
      | _ => Ok (setIgnoreSemicolons
                   (setStatementEnded st (ignoreSemicolons st)) false)
      end
  else if name =? "ConditionalBegin" then
    if negb (isLoop st) then Err ErrConditionalOutsideLoop
    else Ok (setIsConditional st true)
  else if name =? "ConditionalEnd" then
    Ok (setIsConditional st false)
  else if name =? "LoopBegin" then
    if ignoreSemicolons st then Err ErrNestedLoop
    else
      match currentDirection st with
      | directionNone => Ok st
      | directionUp =>
          Ok (setP (setIgnoreSemicolons (setIsLoop st true) true)
                   (disableUp (p st)))
      | directionDown =>
          Ok (setP (setIgnoreSemicolons (setIsLoop st true) true)
                   (disableDown (p st)))
      end
  else if name =? "LoopEnd" then
    if isConditional st then Err ErrUnclosedConditional
    else if negb (isLoop st) then Ok st
    else
      match currentDirection st with
      | directionNone => Ok st
      | _ => Ok (setIgnoreSemicolons
                   (setStatementEnded st (ignoreSemicolons st)) false)
      end
  else Ok st.

(** [isLineSeparator], computed after the command of the line was handled. *)
Definition isLineSeparator (st : state) (line : string) : bool :=
  negb (ignoreSemicolons st)
  && (0 <? String.length LineSeparator)%nat
  && (line =? LineSeparator).

(** The two appends of the loop body: the one outside a loop, which leaves
    out separator lines and lines that start with "-- +", and the one inside
    a loop, which picks the buffer and leaves out nothing. *)
Definition accumulate (st : state) (line : string) : state :=
  let st1 :=
    if negb (isLineSeparator st line) && negb (HasPrefix line "-- +")
       && negb (isLoop st)
    then setStatementBuf st (writeLine (statementBuf st) line)
    else st in
  if isLoop st1 then
    if isConditional st1
    then setConditionalBuf st1 (writeLine (conditionalBuf st1) line)
    else setStatementBuf st1 (writeLine (statementBuf st1) line)
  else st1.

(** The state after a flush: [isLoop = false] and both buffers reset. *)
Definition afterFlush (st : state) (d : ParsedMigration) : state :=
  setConditionalBuf (setStatementBuf (setIsLoop (setP st d) false) "") "".

(** The last [if] of the loop body: whether the line concludes a statement,
    and the flush.  [separator] is the value of [isLineSeparator] that was
    computed before the appends. *)
Definition conclude (st : state) (line : string) (separator : bool)
  : result state :=
  if negb (ignoreSemicolons st) && (endsWithSemicolon line || separator)
     || statementEnded st
  then
    let st := setStatementEnded st false in
    let newStatement :=
      mkStatement (statementBuf st) (isLoop st) (conditionalBuf st) in
    match currentDirection st with
    | directionUp => Ok (afterFlush st (appendUp (p st) newStatement))
    | directionDown => Ok (afterFlush st (appendDown (p st) newStatement))
    | directionNone => Panic "impossible state"
    end
  else Ok st.

(** The [if strings.HasPrefix(line, sqlCmdPrefix)] of the loop body ("handle
    any migrate-specific commands"). *)
Definition applyCommand (st : state) (line : string) : result state :=
  if HasPrefix line sqlCmdPrefix
  then cmd <- parseCommand line ;; handleCommand st cmd
  else Ok st.

(** One iteration of [for scanner.Scan()], on the token [line]: the plain
    comments are skipped, the command of the line is handled, and, with a
    direction set, the line is appended and the statement concluded. *)
Definition processLine (st : state) (line : string) : result state :=
  if HasPrefix line "-- " && negb (HasPrefix line "-- +") then Ok st
  else
    st1 <- applyCommand st line ;;
    match currentDirection st1 with
    | directionNone => Ok st1
    | _ => conclude (accumulate st1 line) line (isLineSeparator st1 line)
    end.

(** The whole loop over the tokens of the scanner; an error or a panic of
    one iteration ends the call. *)
Fixpoint processLines (st : state) (lines : list string) : result state :=
  match lines with
  | [] => Ok st
  | line :: rest => st1 <- processLine st line ;; processLines st1 rest
  end.

(** The checks after the loop ("diagnose likely migration script errors"). *)
Definition finalChecks (st : state) : result ParsedMigration :=
  if ignoreSemicolons st then Err ErrUnterminatedStatementBlock
  else if isLoop st then Err ErrUnterminatedLoop
  else if isConditional st then Err ErrUnterminatedConditional
  else
    match currentDirection st with
    | directionNone => Err ErrNoDirectionFound
    | _ =>
        if holdsText (statementBuf st)
           && negb (HasPrefix (statementBuf st) "-- +")
        then Err errNoTerminator
        else Ok (p st)
    end.

(** [ParseMigration(r)]. *)
Definition ParseMigration (r : ReadSeeker) : result ParsedMigration :=
  match seekError r with
  | Some e => Err (ErrStream e)
  | None =>
      let (lines, scanErr) := ScanLines r in
      st <- processLines initialState lines ;;
      match scanErr with
      | Some e => Err e
      | None => finalChecks st
      end
  end.

End Parser.

(** ** Scripts, and the words of the properties *)

Definition newline : string := String "010" "".

(** The script whose lines are [ls], each ended by a newline. *)
Fixpoint joinLines (ls : list string) : string :=
  match ls with
  | [] => ""
  | l :: rest => l ++ newline ++ joinLines rest
  end.

Fixpoint hasNewline (s : string) : bool :=
  match s with
  | EmptyString => false
  | String c r => (c =? "010")%char || hasNewline r
  end.

(** A line as the scanner delivers it: no newline inside, no carriage return
    at its end, and short enough for the scanner's buffer. *)
Definition isLine (l : string) : bool :=
  negb (hasNewline l)
  && negb (HasSuffix l (String "013" ""))
  && (N.of_nat (String.length l) <? MaxScanTokenSize)%N.

(** An annotation line: it starts with the command prefix. *)
Definition isAnnotation (l : string) : bool := HasPrefix l sqlCmdPrefix.

(** The lines that the first [if] of the loop body skips. *)
Definition isPlainComment (l : string) : bool :=
  HasPrefix l "-- " && negb (HasPrefix l "-- +").

(** The text that a buffer outside a loop gathers from [ls]: the lines that
    do not start with "-- ", each followed by a newline. *)
Fixpoint bodyText (ls : list string) : string :=
  match ls with
  | [] => ""
  | l :: rest =>
      if HasPrefix l "-- " then bodyText rest
      else l ++ newline ++ bodyText rest
  end.

(** The statement list and the transaction flag of one direction. *)
Definition statementsOf (d : migrationDirection) (doc : ParsedMigration)
  : list migrationStatement :=
  match d with
  | directionUp => UpStatements doc
  | directionDown => DownStatements doc
  | directionNone => []
  end.

Definition disableTransactionOf (d : migrationDirection) (doc : ParsedMigration)
  : bool :=
  match d with
  | directionUp => DisableTransactionUp doc
  | directionDown => DisableTransactionDown doc
  | directionNone => false
  end.

Definition opposite (d : migrationDirection) : migrationDirection :=
  match d with
  | directionUp => directionDown
  | directionDown => directionUp
  | directionNone => directionNone
  end.

(** The name of the annotation that opens the section of a direction. *)
Definition directionName (d : migrationDirection) : string :=
  match d with
  | directionUp => "Up"
  | directionDown => "Down"
  | directionNone => ""
  end.

(** The invariant of the data model: a conditional text only on a loop. *)
Definition conditionalOnlyInLoop (s : migrationStatement) : Prop :=
  Conditional s <> "" -> Loop s = true.

(** Whether [l] is the configured separator line: [LineSeparator] is set and
    [l] equals it. *)
Definition matchesSeparator (sep l : string) : bool :=
  (0 <? String.length sep)%nat && (l =? sep).

(** The text that the statement buffer inside a loop gathers from [ls] while
    no conditional is open: every line but the plain comments. *)
Fixpoint loopText (ls : list string) : string :=
  match ls with
  | [] => ""
  | l :: rest =>
      if isPlainComment l then loopText rest
      else l ++ newline ++ loopText rest
  end.

(** [p] after the transaction of a direction was disabled, and after a
    statement was appended to the list of a direction. *)
Definition disable (d : migrationDirection) (doc : ParsedMigration)
  : ParsedMigration :=
  match d with
  | directionUp => disableUp doc
  | directionDown => disableDown doc
  | directionNone => doc
  end.

Definition appendTo (d : migrationDirection) (doc : ParsedMigration)
  (s : migrationStatement) : ParsedMigration :=
  match d with
  | directionUp => appendUp doc s
  | directionDown => appendDown doc s
  | directionNone => doc
  end.

(** The effect of the [notransaction] option of an [Up] or [Down] line. *)
Definition withOptions (d : migrationDirection) (cmd : migrateCommand)
  (doc : ParsedMigration) : ParsedMigration :=
  if HasOption cmd optionNoTransaction then disable d doc else doc.

(** The shapes of the state: gathering a statement outside any block, inside
    a [StatementBegin] block, and inside a loop. *)
Definition gathering (d : migrationDirection) (doc : ParsedMigration)
  (buf : string) : state :=
  mkState doc buf "" false false d false false.

Definition inBlock (d : migrationDirection) (doc : ParsedMigration)
  (buf : string) : state :=
  mkState doc buf "" false true d false false.

Definition inLoop (d : migrationDirection) (doc : ParsedMigration)
  (buf cond : string) (conditional : bool) : state :=
  mkState doc buf cond false true d true conditional.

(** A statement of a script as the boundary detector sees it: lines that do
    not conclude a statement, then one that does.  None of them is an
    annotation or the separator line. *)
Record sqlStatement : Type := mkSql {
  leading : list string;
  closing : string
}.

Definition linesOf (s : sqlStatement) : list string :=
  leading s ++ [closing s].

Definition openLine (sep l : string) : bool :=
  negb (isAnnotation l) && negb (matchesSeparator sep l)
  && negb (endsWithSemicolon l).

Definition closingLine (sep l : string) : bool :=
  endsWithSemicolon l && negb (matchesSeparator sep l).

Definition semicolonTerminated (sep : string) (s : sqlStatement) : bool :=
  forallb (openLine sep) (leading s) && closingLine sep (closing s).

(** The block that the parser emits for a statement outside any block. *)
Definition emitted (s : sqlStatement) : migrationStatement :=
  mkStatement (bodyText (linesOf s)) false "".

(** [p] after each statement of [blocks] was appended to the list of [d]. *)
Definition appendAll (d : migrationDirection) (doc : ParsedMigration)
  (blocks : list migrationStatement) : ParsedMigration :=
  fold_left (appendTo d) blocks doc.

(** The lines of a sequence of statements, in order. *)
Definition scriptLines (ss : list sqlStatement) : list string :=
  concat (map linesOf ss).

(** The block of a loop region: inside a loop the annotation lines are
    appended with the others, the [ConditionalBegin] line and the query to the
    conditional text, the rest to the text. *)
Definition loopStatement (loopBegin conditionalBegin query conditionalEnd
  : string) (body : list string) (loopEnd : string) : migrationStatement :=
  mkStatement
    (loopText ([loopBegin; conditionalEnd] ++ body ++ [loopEnd]))
    true
    (loopText [conditionalBegin; query]).

(** What holds of the state between two iterations of the loop: a direction
    is set, a conditional buffer holds text only inside a loop, and every
    statement emitted so far obeys the invariant of the data model. *)
Definition consistent (st : state) : Prop :=
  currentDirection st <> directionNone
  /\ (conditionalBuf st <> "" -> isLoop st = true)
  /\ Forall conditionalOnlyInLoop (UpStatements (p st))
  /\ Forall conditionalOnlyInLoop (DownStatements (p st)).

(** ** Example scripts *)

Module Examples.

Definition up : string := "-- +migrate Up".
Definition upNoTransaction : string := "-- +migrate Up notransaction".
Definition down : string := "-- +migrate Down".
Definition statementBegin : string := "-- +migrate StatementBegin".
Definition statementEnd : string := "-- +migrate StatementEnd".
Definition loopBegin : string := "-- +migrate LoopBegin".
Definition loopEnd : string := "-- +migrate LoopEnd".
Definition conditionalBegin : string := "-- +migrate ConditionalBegin".
Definition conditionalEnd : string := "-- +migrate ConditionalEnd".

Definition command (name : string) : migrateCommand :=
  {| Command := name; Options := [] |}.

(** Two statements, the second on three lines with a comment in between. *)
Definition addColumn : sqlStatement :=
  {| leading := [];
     closing := "ALTER TABLE people ADD COLUMN first_name text;" |}.

Definition backfill : sqlStatement :=
  {| leading := ["UPDATE people"; "-- every row"; "  SET first_name = 'Jim Bob'"];
     closing := "  WHERE first_name IS NULL; -- done" |}.

Definition dropColumn : sqlStatement :=
  {| leading := []; closing := "ALTER TABLE people DROP COLUMN first_name;" |}.

(** The body of a function, with semicolons of its own. *)
Definition functionBody : list string :=
  ["CREATE FUNCTION touch() RETURNS void AS $$";
   "BEGIN";
   "  UPDATE people SET seen = now(); DELETE FROM stale;";
   "END;";
   "$$ LANGUAGE plpgsql;"].

(** The query and the body of a loop. *)
Definition loopQuery : string :=
  "SELECT COUNT(*) FROM people WHERE first_name IS NULL;".

Definition loopBody : list string :=
  ["UPDATE people SET first_name = 'Jim Bob'";
   "  WHERE first_name IS NULL;"].

Definition blockScript : list string :=
  down :: scriptLines [dropColumn]
    ++ statementBegin :: functionBody
    ++ statementEnd :: scriptLines [addColumn].

Definition loopScript : list string :=
  upNoTransaction :: scriptLines [addColumn]
    ++ loopBegin :: conditionalBegin :: loopQuery :: conditionalEnd
    :: loopBody ++ loopEnd :: scriptLines [backfill].

(** A script with no annotation at all. *)
Definition bareScript : string := "SELECT 1;".

(** A loop right after the Up line. *)
Definition shortLoopScript : list string :=
  [up; loopBegin; "SELECT 1;"; loopEnd].

(** A statement without its semicolon. *)
Definition openScript : list string := [up; "SELECT 1"].

(** A line with a double dash and no space after it. *)
Definition tightComment : string := "--x".

(** The separator of SQL Query Analyzer, and a line that equals it only once
    its trailing space is trimmed. *)
Definition go : string := "GO".
Definition goSpace : string := "GO ".

End Examples.

(** ** Words of the further properties *)

(** How the flags nest between two iterations of the loop: a direction is
    set, no flush is pending, a loop ignores semicolons, and a conditional is
    open only inside a loop. *)
Definition wellNested (st : state) : Prop :=
  currentDirection st <> directionNone
  /\ statementEnded st = false
  /\ (isLoop st = true -> ignoreSemicolons st = true)
  /\ (isConditional st = true -> isLoop st = true).

(** The errors that an annotation can raise inside the loop. *)
Definition annotationError (sep : string) (e : error) : Prop :=
  e = ErrMalformedCommand
  \/ e = ErrUnterminatedStatement sep
  \/ e = ErrNestedStatementBlock
  \/ e = ErrNestedLoop
  \/ e = ErrConditionalOutsideLoop
  \/ e = ErrUnclosedConditional.

(** The command names that change nothing while no loop and no statement
    block is open: all but these six.  [LoopEnd], [ConditionalEnd] and the
    names that no [case] lists are among them. *)
Definition ignoredOutsideLoops (name : string) : bool :=
  negb (existsb (String.eqb name)
          ["Up"; "Down"; "StatementBegin"; "StatementEnd";
           "ConditionalBegin"; "LoopBegin"]).

(** The texts of a list of blocks, one after the other. *)
Fixpoint textOf (blocks : list migrationStatement) : string :=
  match blocks with
  | [] => ""
  | b :: rest => Statement b ++ textOf rest
  end.

(** A line with the carriage return of a CRLF line ending. *)
Definition withCR (l : string) : string := l ++ String "013" "".

(** The number of blocks of a document. *)
Definition blockCount (doc : ParsedMigration) : nat :=
  List.length (UpStatements doc) + List.length (DownStatements doc).

(** [n] times the byte [c]. *)
Fixpoint repeatByte (n : nat) (c : ascii) : string :=
  match n with
  | O => ""
  | S k => String c (repeatByte k c)
  end.

(** Whether a white-space rune starts somewhere in [s]. *)
Fixpoint hasSpace (s : string) : bool :=
  match s with
  | EmptyString => false
  | String _ r => (0 <? spaceWidth s)%nat || hasSpace r
  end.

(** A word: not empty and without white space. *)
Definition isWord (w : string) : bool :=
  negb (w =? "") && negb (hasSpace w).

(** Words separated by one space. *)
Fixpoint joinWords (ws : list string) : string :=
  match ws with
  | [] => ""
  | [w] => w
  | w :: rest => w ++ String " " (joinWords rest)
  end.

(** The lines of statements that are each ended by the separator line. *)
Definition separatedLines (sep : string) (groups : list (list string))
  : list string :=
  concat (map (fun g => (g ++ [sep])%list) groups).

(** The block that the separator line emits for the lines before it. *)
Definition separated (g : list string) : migrationStatement :=
  mkStatement (bodyText g) false "".

(** ** Further example scripts *)

Module MoreExamples.

(** The state after an Up line, a LoopBegin line and a ConditionalBegin
    line. *)
Definition openConditional : state :=
  inLoop directionUp (disableUp (p initialState))
    (writeLine "" Examples.loopBegin)
    (writeLine "" Examples.conditionalBegin) true.

(** The state after an Up line and a LoopBegin line. *)
Definition openLoop : state :=
  inLoop directionUp (disableUp (p initialState))
    (writeLine "" Examples.loopBegin) "" false.

(** An annotation of a later version of the tool. *)
Definition unknown : string := "-- +migrate Frobnicate now".

(** The command prefix and nothing but white space. *)
Definition barePrefix : string := "-- +migrate   ".

(** A line of [bufio.MaxScanTokenSize] bytes. *)
Definition longLine : string :=
  repeatByte (N.to_nat MaxScanTokenSize) "a".

(** A stream that breaks after its first bytes. *)
Definition brokenStream : ReadSeeker :=
  {| seekError := None; contents := "SELECT 1;";
     readError := Some "unexpected EOF" |}.

(** The document of [Examples.shortLoopScript]. *)
Definition shortLoopDocument : ParsedMigration :=
  {| UpStatements :=
       [mkStatement
          (joinLines [Examples.loopBegin; "SELECT 1;"; Examples.loopEnd])
          true ""];
     DownStatements := [];
     DisableTransactionUp := true;
     DisableTransactionDown := false |}.

(** Statements ended by the separator line, the second one empty. *)
Definition batches : list (list string) :=
  [["SELECT 1"]; []; ["UPDATE people"; "  SET seen = now()"]].

End MoreExamples.

(** ** Lemmas on byte strings *)

Lemma append_empty_r (s : string) : s ++ "" = s.
Proof. induction s as [|c s IH]; simpl; [reflexivity | now rewrite IH]. Qed.

Lemma append_assoc (a b c : string) : (a ++ b) ++ c = a ++ b ++ c.
Proof. induction a as [|x a IH]; simpl; [reflexivity | now rewrite IH]. Qed.

Lemma snoc_append (w : string) (c : ascii) (s : string) :
  snoc w c ++ s = w ++ String c s.
Proof. unfold snoc. now rewrite append_assoc. Qed.

Lemma HasPrefix_split (s pre : string) :
  HasPrefix s pre = true -> exists r, s = pre ++ r.
Proof.
  revert s; induction pre as [|c pre IH]; intros s H.
  - now exists s.
  - destruct s as [|c' s]; simpl in H; [discriminate|].
    apply andb_true_iff in H as [Hc H]. apply Ascii.eqb_eq in Hc as ->.
    destruct (IH s H) as [r ->]. now exists r.
Qed.

Lemma HasPrefix_append (pre r : string) : HasPrefix (pre ++ r) pre = true.
Proof.
  induction pre as [|c pre IH]; simpl; [reflexivity|].
  now rewrite Ascii.eqb_refl.
Qed.

(** ** The scanner on a script of lines *)

Lemma splitLines_line (l cur rest : string) :
  hasNewline l = false ->
  splitLines cur (l ++ newline ++ rest) = (cur ++ l) :: splitLines "" rest.
Proof.
  revert cur; induction l as [|c l IH]; intros cur H; simpl in *.
  - now rewrite append_empty_r.
  - apply orb_false_iff in H as [Hc Hl]. rewrite Hc, IH by exact Hl.
    now rewrite snoc_append.
Qed.

Lemma splitLines_joinLines (ls : list string) :
  Forall (fun l => isLine l = true) ls ->
  splitLines "" (joinLines ls) = ls.
Proof.
  induction 1 as [|l ls Hl _ IH]; cbn [joinLines]; [reflexivity|].
  unfold isLine in Hl. apply andb_true_iff in Hl as [Hl _].
  apply andb_true_iff in Hl as [Hl _]. apply negb_true_iff in Hl.
  rewrite splitLines_line by exact Hl. now rewrite IH.
Qed.

Lemma scanTokens_lines (ls : list string) (e : option error) :
  Forall (fun l => isLine l = true) ls ->
  scanTokens ls e = (ls, e).
Proof.
  induction 1 as [|l ls Hl _ IH]; simpl; [reflexivity|].
  unfold isLine in Hl. apply andb_true_iff in Hl as [Hl Hshort].
  apply andb_true_iff in Hl as [_ Hcr]. apply negb_true_iff in Hcr.
  apply N.ltb_lt in Hshort.
  destruct (N.leb_spec MaxScanTokenSize (N.of_nat (String.length l)));
    [lia|].
  rewrite IH. unfold dropCR. now rewrite Hcr.
Qed.

Lemma ScanLines_joinLines (ls : list string) :
  Forall (fun l => isLine l = true) ls ->
  ScanLines (NewReader (joinLines ls)) = (ls, None).
Proof.
  intros H. unfold ScanLines; simpl.
  now rewrite splitLines_joinLines, scanTokens_lines.
Qed.

Lemma ParseMigration_joinLines (sep : string) (ls : list string) :
  forallb isLine ls = true ->
  ParseMigration sep (NewReader (joinLines ls))
  = (st <- processLines sep initialState ls ;; finalChecks sep st).
Proof.
  intros H. assert (F : Forall (fun l => isLine l = true) ls)
    by (apply Forall_forall; now apply forallb_forall).
  unfold ParseMigration.
  change (seekError (NewReader (joinLines ls))) with (@None string).
  cbv iota. now rewrite ScanLines_joinLines.
Qed.

(** ** Lemmas on words, comments and annotations *)

Lemma wordsFrom_first (s w : string) :
  w <> "" -> exists w' rest, wordsFrom 0 w s = (w ++ w') :: rest.
Proof.
  revert w; induction s as [|c s IH]; intros w Hw.
  - exists "", []. simpl. rewrite append_empty_r.
    destruct w; [congruence | reflexivity].
  - cbn [wordsFrom]. destruct (spaceWidth (String c s)) as [|k].
    + destruct (IH (snoc w c)) as (w' & rest & E).
      { unfold snoc. destruct w; discriminate. }
      exists (String c w'), rest. now rewrite E, snoc_append.
    + exists "", (wordsFrom k "" s). rewrite append_empty_r.
      destruct w; [congruence | reflexivity].
Qed.

(** A line that starts with a double dash has no code word at all. *)
Lemma endsWithSemicolon_dashes (l : string) :
  HasPrefix l "--" = true -> endsWithSemicolon l = false.
Proof.
  intros H. apply HasPrefix_split in H as [r ->].
  unfold endsWithSemicolon, Fields. cbn.
  destruct (wordsFrom_first r "--") as (w' & rest & E); [discriminate|].
  rewrite E. reflexivity.
Qed.

Lemma HasPrefix_dashes (l : string) :
  HasPrefix l "-- " = true -> HasPrefix l "--" = true.
Proof. intros H. apply HasPrefix_split in H as [r ->]. reflexivity. Qed.

Lemma isAnnotation_plus (l : string) :
  isAnnotation l = true -> HasPrefix l "-- +" = true.
Proof. intros H. apply HasPrefix_split in H as [r ->]. reflexivity. Qed.

Lemma plus_dashes (l : string) :
  HasPrefix l "-- +" = true -> HasPrefix l "-- " = true.
Proof. intros H. apply HasPrefix_split in H as [r ->]. reflexivity. Qed.

Lemma endsWithSemicolon_code (l : string) :
  endsWithSemicolon l = true ->
  HasPrefix l "-- " = false /\ HasPrefix l "-- +" = false
  /\ isAnnotation l = false.
Proof.
  intros H.
  assert (D : HasPrefix l "-- " = false).
  { destruct (HasPrefix l "-- ") eqn:E; [|reflexivity].
    apply HasPrefix_dashes, endsWithSemicolon_dashes in E. congruence. }
  repeat split; [exact D | |].
  - destruct (HasPrefix l "-- +") eqn:E; [|reflexivity].
    apply plus_dashes in E. congruence.
  - destruct (isAnnotation l) eqn:E; [|reflexivity].
    apply isAnnotation_plus, plus_dashes in E. congruence.
Qed.

Lemma parseCommand_annotation (l : string) (cmd : migrateCommand) :
  parseCommand l = Ok cmd -> isAnnotation l = true.
Proof.
  unfold parseCommand, isAnnotation.
  destruct (HasPrefix l sqlCmdPrefix); [reflexivity | discriminate].
Qed.

(** ** One iteration of the loop, by the kind of its line *)

#[local] Arguments HasPrefix : simpl never.
#[local] Arguments endsWithSemicolon : simpl never.
#[local] Arguments matchesSeparator : simpl never.
#[local] Arguments writeLine : simpl never.

Section Steps.

Variable sep : string.

Lemma processLine_comment (st : state) (l : string) :
  isPlainComment l = true -> processLine sep st l = Ok st.
Proof. unfold processLine, isPlainComment. now intros ->. Qed.

Lemma processLine_command (st : state) (l : string) (cmd : migrateCommand) :
  parseCommand l = Ok cmd ->
  processLine sep st l
  = (st1 <- handleCommand sep st cmd ;;
     match currentDirection st1 with
     | directionNone => Ok st1
     | _ => conclude (accumulate sep st1 l) l (isLineSeparator sep st1 l)
     end).
Proof.
  intros H. pose proof (parseCommand_annotation l cmd H) as A.
  unfold processLine, applyCommand. rewrite (isAnnotation_plus l A).
  unfold isAnnotation in A. rewrite A, H, andb_false_r. reflexivity.
Qed.

Lemma processLine_text (st : state) (l : string) :
  isAnnotation l = false -> isPlainComment l = false ->
  processLine sep st l
  = match currentDirection st with
    | directionNone => Ok st
    | _ => conclude (accumulate sep st l) l (isLineSeparator sep st l)
    end.
Proof.
  unfold processLine, applyCommand, isAnnotation, isPlainComment.
  now intros -> ->.
Qed.

End Steps.

(** ** Invariants of the loop *)

Section Invariants.

Variable sep : string.

Ltac branches H :=
  repeat match type of H with
         | context [if ?b then _ else _] => destruct b eqn:?
         | context [match currentDirection ?s with _ => _ end] =>
             destruct (currentDirection s) eqn:?
         end.

Lemma initialState_consistent : consistent initialState.
Proof.
  unfold consistent; simpl. repeat split; try constructor; congruence.
Qed.

Lemma handleCommand_consistent (st st' : state) (cmd : migrateCommand) :
  consistent st -> handleCommand sep st cmd = Ok st' -> consistent st'.
Proof.
  intros (D & C & U & W) H. unfold handleCommand in H.
  branches H; inversion H; subst; clear H; unfold consistent; simpl;
    repeat split; auto; congruence.
Qed.

Lemma accumulate_consistent (st : state) (l : string) :
  consistent st -> consistent (accumulate sep st l).
Proof.
  intros (D & C & U & W). unfold accumulate, consistent.
  destruct (negb (isLineSeparator sep st l) && negb (HasPrefix l "-- +")
            && negb (isLoop st)); simpl;
    destruct (isLoop st) eqn:L; simpl; try rewrite L;
    try destruct (isConditional st); simpl; repeat split; auto.
Qed.

Lemma conclude_consistent (st st' : state) (l : string) (b : bool) :
  consistent st -> conclude st l b = Ok st' -> consistent st'.
Proof.
  intros (D & C & U & W) H. unfold conclude in H.
  branches H; inversion H; subst; clear H; unfold consistent; simpl;
    repeat split; auto; try congruence;
    apply Forall_app; split; auto; repeat constructor; exact C.
Qed.

Lemma processLine_consistent (st st' : state) (l : string) :
  consistent st -> processLine sep st l = Ok st' -> consistent st'.
Proof.
  intros I H. unfold processLine, applyCommand in H.
  destruct (HasPrefix l "-- " && negb (HasPrefix l "-- +")).
  { now inversion H; subst. }
  destruct (HasPrefix l sqlCmdPrefix).
  - destruct (parseCommand l) as [cmd| |]; try discriminate. simpl in H.
    destruct (handleCommand sep st cmd) as [st1| |] eqn:E; try discriminate.
    simpl in H. apply handleCommand_consistent in E; [|exact I].
    destruct (currentDirection st1); [now inversion H; subst | |];
      (eapply conclude_consistent; [|exact H]);
      now apply accumulate_consistent.
  - simpl in H.
    destruct (currentDirection st); [now inversion H; subst | |];
      (eapply conclude_consistent; [|exact H]);
      now apply accumulate_consistent.
Qed.

Lemma processLines_consistent (ls : list string) (st st' : state) :
  consistent st -> processLines sep st ls = Ok st' -> consistent st'.
Proof.
  revert st; induction ls as [|l ls IH]; intros st I H; simpl in H.
  - now inversion H; subst.
  - destruct (processLine sep st l) as [st1| |] eqn:E; try discriminate.
    eapply IH; [|exact H]. eapply processLine_consistent; eauto.
Qed.

(** The errors of the loop body are those of the annotations. *)
Lemma processLine_error (st : state) (l : string) (e : error) :
  processLine sep st l = Err e ->
  e <> ErrNoDirectionFound /\ forall m, e <> ErrStream m.
Proof.
  intros H. unfold processLine, applyCommand in H.
  destruct (HasPrefix l "-- " && negb (HasPrefix l "-- +"));
    [discriminate|].
  assert (C : forall s b, conclude s l b <> Err e).
  { intros s b. unfold conclude.
    destruct (_ || _); [|discriminate].
    destruct (currentDirection _); discriminate. }
  destruct (HasPrefix l sqlCmdPrefix).
  - unfold parseCommand in H.
    destruct (negb (HasPrefix l sqlCmdPrefix)).
    { inversion H; subst. split; [|intros m]; discriminate. }
    destruct (Fields _) as [|name options].
    { inversion H; subst. split; [|intros m]; discriminate. }
    simpl in H.
    destruct (handleCommand sep st _) as [st1| |] eqn:E; try discriminate.
    + simpl in H. destruct (currentDirection st1); try discriminate;
        now apply C in H.
    + simpl in H. inversion H; subst. clear H C.
      unfold handleCommand in E.
      branches E; inversion E; subst; split; try intros m; discriminate.
  - simpl in H. destruct (currentDirection st); try discriminate;
      now apply C in H.
Qed.

Lemma processLines_error (ls : list string) (st : state) (e : error) :
  processLines sep st ls = Err e ->
  e <> ErrNoDirectionFound /\ forall m, e <> ErrStream m.
Proof.
  revert st; induction ls as [|l ls IH]; intros st H; simpl in H.
  - discriminate.
  - destruct (processLine sep st l) as [st1| |] eqn:E; simpl in H.
    + eauto.
    + inversion H; subst. eapply processLine_error; eauto.
    + discriminate.
Qed.

(** The [default] branch of the flush is dead code: no call panics. *)
Lemma processLine_no_panic (st : state) (l : string) (m : string) :
  consistent st -> processLine sep st l <> Panic m.
Proof.
  intros I H. unfold processLine, applyCommand in H.
  destruct (HasPrefix l "-- " && negb (HasPrefix l "-- +"));
    [discriminate|].
  assert (C : forall s b, currentDirection s <> directionNone ->
                          conclude s l b <> Panic m).
  { intros s b D. unfold conclude.
    destruct (_ || _); [|discriminate].
    simpl. destruct (currentDirection s); [congruence | |]; discriminate. }
  assert (A : forall s, currentDirection (accumulate sep s l)
                        = currentDirection s).
  { intros s. unfold accumulate.
    destruct (_ && _); simpl; destruct (isLoop s); simpl;
      try destruct (isConditional s); reflexivity. }
  destruct (HasPrefix l sqlCmdPrefix).
  - destruct (parseCommand l) as [cmd| |] eqn:P; try discriminate.
    + simpl in H.
      destruct (handleCommand sep st cmd) as [st1| |] eqn:E;
        try discriminate.
      * simpl in H. destruct (currentDirection st1) eqn:D;
          try discriminate; apply C in H; auto; rewrite A; congruence.
      * unfold handleCommand in E. branches E; discriminate.
    + unfold parseCommand in P.
      destruct (negb _); [discriminate|]. destruct (Fields _); discriminate.
  - simpl in H. destruct (currentDirection st) eqn:D; try discriminate;
      apply C in H; auto; rewrite A; congruence.
Qed.

End Invariants.

(** ** The loop body on each shape of the state *)

Section Traces.

Variable sep : string.

Lemma isLineSeparator_spec (st : state) (l : string) :
  isLineSeparator sep st l
  = negb (ignoreSemicolons st) && matchesSeparator sep l.
Proof.
  unfold isLineSeparator, matchesSeparator. now rewrite andb_assoc.
Qed.

Lemma holdsText_empty : holdsText "" = false.
Proof. reflexivity. Qed.

Lemma annotation_facts (l : string) (cmd : migrateCommand) :
  parseCommand l = Ok cmd ->
  HasPrefix l "-- +" = true /\ endsWithSemicolon l = false.
Proof.
  intros H. apply parseCommand_annotation, isAnnotation_plus in H.
  split; [exact H|].
  now apply endsWithSemicolon_dashes, HasPrefix_dashes, plus_dashes.
Qed.

Ltac annotation H N :=
  let P := fresh "P" in
  let E := fresh "E" in
  destruct (annotation_facts _ _ H) as [P E];
  rewrite (processLine_command sep _ _ _ H);
  unfold handleCommand; rewrite N; cbn;
  unfold accumulate, conclude; rewrite ?isLineSeparator_spec; cbn;
  rewrite ?P, ?E; cbn; rewrite ?andb_false_r; cbn;
  rewrite ?orb_true_r; cbn.

Lemma direction_line (d d0 : migrationDirection) (doc : ParsedMigration)
  (l : string) (cmd : migrateCommand) :
  parseCommand l = Ok cmd -> Command cmd = directionName d ->
  d <> directionNone ->
  matchesSeparator sep l = false ->
  processLine sep (gathering d0 doc "") l
  = Ok (gathering d (withOptions d cmd doc) "").
Proof.
  intros H N D S. unfold withOptions.
  destruct d; [congruence | |]; annotation H N; rewrite ?S;
    destruct (HasOption cmd optionNoTransaction); cbn; rewrite ?P, ?S, ?E;
    reflexivity.
Qed.

(** On a line that is not skipped, the two prefix tests agree. *)
Lemma plus_of_kept (l : string) :
  isPlainComment l = false -> HasPrefix l "-- +" = HasPrefix l "-- ".
Proof.
  unfold isPlainComment. intros C.
  destruct (HasPrefix l "-- +") eqn:Q.
  - now rewrite (plus_dashes l Q).
  - destruct (HasPrefix l "-- "); [discriminate | reflexivity].
Qed.

Ltac text A C :=
  rewrite (processLine_text sep _ _ A C); cbn;
  unfold accumulate, conclude; rewrite ?isLineSeparator_spec; cbn.

(** Outside any block. *)
Lemma open_line (d : migrationDirection) (doc : ParsedMigration)
  (buf l : string) :
  d <> directionNone -> openLine sep l = true ->
  processLine sep (gathering d doc buf) l
  = Ok (gathering d doc (if HasPrefix l "-- " then buf else writeLine buf l)).
Proof.
  intros D O. unfold openLine in O.
  apply andb_true_iff in O as [O E]. apply andb_true_iff in O as [A S].
  apply negb_true_iff in A, S, E.
  destruct (isPlainComment l) eqn:C.
  - rewrite processLine_comment by exact C.
    unfold isPlainComment in C. apply andb_true_iff in C as [-> _].
    reflexivity.
  - pose proof (plus_of_kept l C) as Q.
    destruct d; [congruence | |]; text A C; rewrite S, E, Q; cbn;
      destruct (HasPrefix l "-- "); reflexivity.
Qed.

Lemma closing_line (d : migrationDirection) (doc : ParsedMigration)
  (buf l : string) :
  d <> directionNone -> closingLine sep l = true ->
  processLine sep (gathering d doc buf) l
  = Ok (gathering d
          (appendTo d doc (mkStatement (writeLine buf l) false "")) "").
Proof.
  intros D O. unfold closingLine in O. apply andb_true_iff in O as [E S].
  apply negb_true_iff in S.
  destruct (endsWithSemicolon_code l E) as (C1 & C2 & A).
  assert (C : isPlainComment l = false)
    by (unfold isPlainComment; now rewrite C1).
  destruct d; [congruence | |]; text A C; rewrite S, C2, E; reflexivity.
Qed.

(** The [StatementBegin] block. *)
Lemma StatementBegin_line (d : migrationDirection) (doc : ParsedMigration)
  (buf l : string) (cmd : migrateCommand) :
  parseCommand l = Ok cmd -> Command cmd = "StatementBegin" ->
  d <> directionNone ->
  processLine sep (gathering d doc buf) l = Ok (inBlock d doc buf).
Proof.
  intros H N D. destruct d; [congruence | |]; annotation H N; reflexivity.
Qed.

Lemma block_line (d : migrationDirection) (doc : ParsedMigration)
  (buf l : string) :
  d <> directionNone -> isAnnotation l = false ->
  processLine sep (inBlock d doc buf) l
  = Ok (inBlock d doc (if HasPrefix l "-- " then buf else writeLine buf l)).
Proof.
  intros D A.
  destruct (isPlainComment l) eqn:C.
  - rewrite processLine_comment by exact C.
    unfold isPlainComment in C. apply andb_true_iff in C as [-> _].
    reflexivity.
  - pose proof (plus_of_kept l C) as Q.
    destruct d; [congruence | |]; text A C; rewrite Q; cbn;
      destruct (HasPrefix l "-- "); reflexivity.
Qed.

Lemma StatementEnd_line (d : migrationDirection) (doc : ParsedMigration)
  (buf l : string) (cmd : migrateCommand) :
  parseCommand l = Ok cmd -> Command cmd = "StatementEnd" ->
  d <> directionNone ->
  processLine sep (inBlock d doc buf) l
  = Ok (gathering d (appendTo d doc (mkStatement buf false "")) "").
Proof.
  intros H N D. destruct d; [congruence | |]; annotation H N;
    rewrite ?andb_false_r; cbn; reflexivity.
Qed.

(** The loop. *)
Lemma LoopBegin_line (d : migrationDirection) (doc : ParsedMigration)
  (buf l : string) (cmd : migrateCommand) :
  parseCommand l = Ok cmd -> Command cmd = "LoopBegin" ->
  d <> directionNone ->
  processLine sep (gathering d doc buf) l
  = Ok (inLoop d (disable d doc) (writeLine buf l) "" false).
Proof.
  intros H N D. destruct d; [congruence | |]; annotation H N; reflexivity.
Qed.

Lemma ConditionalBegin_line (d : migrationDirection) (doc : ParsedMigration)
  (buf cond l : string) (c : bool) (cmd : migrateCommand) :
  parseCommand l = Ok cmd -> Command cmd = "ConditionalBegin" ->
  d <> directionNone ->
  processLine sep (inLoop d doc buf cond c) l
  = Ok (inLoop d doc buf (writeLine cond l) true).
Proof.
  intros H N D. destruct d; [congruence | |]; annotation H N; reflexivity.
Qed.

Lemma ConditionalEnd_line (d : migrationDirection) (doc : ParsedMigration)
  (buf cond l : string) (c : bool) (cmd : migrateCommand) :
  parseCommand l = Ok cmd -> Command cmd = "ConditionalEnd" ->
  d <> directionNone ->
  processLine sep (inLoop d doc buf cond c) l
  = Ok (inLoop d doc (writeLine buf l) cond false).
Proof.
  intros H N D. destruct d; [congruence | |]; annotation H N; reflexivity.
Qed.

Lemma loop_line (d : migrationDirection) (doc : ParsedMigration)
  (buf cond l : string) (c : bool) :
  d <> directionNone -> isAnnotation l = false ->
  processLine sep (inLoop d doc buf cond c) l
  = Ok (if isPlainComment l then inLoop d doc buf cond c
        else if c then inLoop d doc buf (writeLine cond l) c
        else inLoop d doc (writeLine buf l) cond c).
Proof.
  intros D A.
  destruct (isPlainComment l) eqn:C.
  - now rewrite processLine_comment.
  - destruct d; [congruence | |]; text A C; rewrite ?andb_false_r; cbn;
      destruct c; reflexivity.
Qed.

Lemma LoopEnd_line (d : migrationDirection) (doc : ParsedMigration)
  (buf cond l : string) (cmd : migrateCommand) :
  parseCommand l = Ok cmd -> Command cmd = "LoopEnd" ->
  d <> directionNone ->
  processLine sep (inLoop d doc buf cond false) l
  = Ok (gathering d
          (appendTo d doc (mkStatement (writeLine buf l) true cond)) "").
Proof.
  intros H N D. destruct d; [congruence | |]; annotation H N;
    rewrite ?andb_false_r; cbn; reflexivity.
Qed.

End Traces.

(** ** Runs of lines *)

Section Runs.

Variable sep : string.

Lemma writeLine_append (buf l rest : string) :
  writeLine buf l ++ rest = buf ++ l ++ newline ++ rest.
Proof. unfold writeLine, newline. now rewrite !append_assoc. Qed.

Lemma bodyText_app (a b : list string) :
  bodyText (a ++ b) = bodyText a ++ bodyText b.
Proof.
  induction a as [|l a IH]; simpl; [reflexivity|].
  destruct (HasPrefix l "-- "); [exact IH|].
  now rewrite IH, !append_assoc.
Qed.

Lemma bodyText_verbatim (ls : list string) :
  forallb (fun l => negb (HasPrefix l "-- ")) ls = true ->
  bodyText ls = joinLines ls.
Proof.
  induction ls as [|l ls IH]; simpl; [reflexivity|].
  intros H. apply andb_true_iff in H as [K H].
  apply negb_true_iff in K. now rewrite K, IH.
Qed.

Lemma gather_run (d : migrationDirection) (doc : ParsedMigration)
  (pre rest : list string) (buf : string) :
  d <> directionNone -> forallb (openLine sep) pre = true ->
  processLines sep (gathering d doc buf) (pre ++ rest)
  = processLines sep (gathering d doc (buf ++ bodyText pre)) rest.
Proof.
  intros D. revert buf; induction pre as [|l pre IH]; intros buf H.
  - simpl. now rewrite append_empty_r.
  - simpl in H. apply andb_true_iff in H as [O H].
    cbn [app processLines]. rewrite (open_line sep d doc buf l D O).
    cbn [bind bodyText]. rewrite (IH _ H).
    destruct (HasPrefix l "-- "); [reflexivity|].
    now rewrite writeLine_append.
Qed.

Lemma statement_run (d : migrationDirection) (doc : ParsedMigration)
  (s : sqlStatement) (rest : list string) :
  d <> directionNone -> semicolonTerminated sep s = true ->
  processLines sep (gathering d doc "") (linesOf s ++ rest)
  = processLines sep (gathering d (appendTo d doc (emitted s)) "") rest.
Proof.
  intros D H. unfold semicolonTerminated in H.
  apply andb_true_iff in H as [O C]. unfold emitted, linesOf.
  rewrite <- app_assoc, (gather_run d doc _ _ "" D O).
  cbn [app processLines]. rewrite (closing_line sep d doc _ _ D C).
  cbn [bind]. unfold closingLine in C. apply andb_true_iff in C as [E _].
  destruct (endsWithSemicolon_code _ E) as (K & _ & _).
  rewrite bodyText_app. cbn [bodyText]. rewrite K.
  unfold writeLine, newline. cbn [append]. reflexivity.
Qed.

Lemma statements_run (d : migrationDirection) (ss : list sqlStatement)
  (doc : ParsedMigration) (rest : list string) :
  d <> directionNone -> forallb (semicolonTerminated sep) ss = true ->
  processLines sep (gathering d doc "") (scriptLines ss ++ rest)
  = processLines sep (gathering d (appendAll d doc (map emitted ss)) "") rest.
Proof.
  intros D. revert doc; induction ss as [|s ss IH]; intros doc H.
  - reflexivity.
  - simpl in H. apply andb_true_iff in H as [T H].
    unfold scriptLines. cbn [map concat]. rewrite <- app_assoc.
    rewrite (statement_run d doc s _ D T). fold (scriptLines ss).
    now rewrite (IH _ H).
Qed.

Lemma block_run (d : migrationDirection) (doc : ParsedMigration)
  (body rest : list string) (buf : string) :
  d <> directionNone ->
  forallb (fun l => negb (isAnnotation l)) body = true ->
  processLines sep (inBlock d doc buf) (body ++ rest)
  = processLines sep (inBlock d doc (buf ++ bodyText body)) rest.
Proof.
  intros D. revert buf; induction body as [|l body IH]; intros buf H.
  - simpl. now rewrite append_empty_r.
  - simpl in H. apply andb_true_iff in H as [A H].
    apply negb_true_iff in A.
    cbn [app processLines]. rewrite (block_line sep d doc buf l D A).
    cbn [bind bodyText]. rewrite (IH _ H).
    destruct (HasPrefix l "-- "); [reflexivity|].
    now rewrite writeLine_append.
Qed.

Lemma loop_run (d : migrationDirection) (doc : ParsedMigration)
  (body rest : list string) (buf cond : string) :
  d <> directionNone ->
  forallb (fun l => negb (isAnnotation l)) body = true ->
  processLines sep (inLoop d doc buf cond false) (body ++ rest)
  = processLines sep (inLoop d doc (buf ++ loopText body) cond false) rest.
Proof.
  intros D. revert buf; induction body as [|l body IH]; intros buf H.
  - simpl. now rewrite append_empty_r.
  - simpl in H. apply andb_true_iff in H as [A H].
    apply negb_true_iff in A.
    cbn [app processLines]. rewrite (loop_line sep d doc buf cond l _ D A).
    cbn [loopText]. destruct (isPlainComment l); cbn [bind];
      rewrite (IH _ H); [reflexivity|].
    now rewrite writeLine_append.
Qed.

(** The document with statements appended, field by field. *)
Lemma appendAll_Up (doc : ParsedMigration) (bs : list migrationStatement) :
  appendAll directionUp doc bs
  = mkParsed (UpStatements doc ++ bs) (DownStatements doc)
             (DisableTransactionUp doc) (DisableTransactionDown doc).
Proof.
  revert doc; induction bs as [|b bs IH]; intros doc.
  - destruct doc; simpl. now rewrite app_nil_r.
  - change (appendAll directionUp doc (b :: bs))
      with (appendAll directionUp (appendTo directionUp doc b) bs).
    rewrite IH. destruct doc; simpl. now rewrite <- app_assoc.
Qed.

Lemma appendAll_Down (doc : ParsedMigration) (bs : list migrationStatement) :
  appendAll directionDown doc bs
  = mkParsed (UpStatements doc) (DownStatements doc ++ bs)
             (DisableTransactionUp doc) (DisableTransactionDown doc).
Proof.
  revert doc; induction bs as [|b bs IH]; intros doc.
  - destruct doc; simpl. now rewrite app_nil_r.
  - change (appendAll directionDown doc (b :: bs))
      with (appendAll directionDown (appendTo directionDown doc b) bs).
    rewrite IH. destruct doc; simpl. now rewrite <- app_assoc.
Qed.

Lemma finalChecks_gathering (d : migrationDirection) (doc : ParsedMigration) :
  d <> directionNone -> finalChecks sep (gathering d doc "") = Ok doc.
Proof. intros D. destruct d; [congruence | |]; reflexivity. Qed.

End Runs.

(** ** Documents of whole scripts *)

Section Documents.

Variable sep : string.

(** A script that opens a section, then holds semicolon-terminated
    statements, and goes on with [rest]. *)
Lemma section_run (d : migrationDirection) (dirLine : string)
  (cmd : migrateCommand) (ss : list sqlStatement) (rest : list string) :
  parseCommand dirLine = Ok cmd -> Command cmd = directionName d ->
  d <> directionNone -> matchesSeparator sep dirLine = false ->
  forallb (semicolonTerminated sep) ss = true ->
  processLines sep initialState (dirLine :: scriptLines ss ++ rest)
  = processLines sep
      (gathering d
         (appendAll d (withOptions d cmd (p initialState)) (map emitted ss))
         "")
      rest.
Proof.
  intros H N D S T. cbn [processLines].
  change initialState with (gathering directionUp (p initialState) "").
  rewrite (direction_line sep d _ _ _ _ H N D S). cbn [bind].
  now apply statements_run.
Qed.

Lemma withOptions_statements (d d' : migrationDirection)
  (cmd : migrateCommand) (doc : ParsedMigration) :
  statementsOf d' (withOptions d cmd doc) = statementsOf d' doc.
Proof.
  unfold withOptions. destruct (HasOption cmd optionNoTransaction);
    destruct d, d'; reflexivity.
Qed.

Lemma appendAll_statements (d : migrationDirection) (doc : ParsedMigration)
  (bs : list migrationStatement) :
  d <> directionNone ->
  statementsOf d (appendAll d doc bs) = (statementsOf d doc ++ bs)%list
  /\ statementsOf (opposite d) (appendAll d doc bs)
     = statementsOf (opposite d) doc
  /\ disableTransactionOf d (appendAll d doc bs) = disableTransactionOf d doc.
Proof.
  intros D. destruct d; [congruence | |];
    rewrite ?appendAll_Up, ?appendAll_Down; repeat split.
Qed.

Lemma appendTo_statements (d : migrationDirection) (doc : ParsedMigration)
  (b : migrationStatement) :
  d <> directionNone ->
  statementsOf d (appendTo d doc b) = (statementsOf d doc ++ [b])%list
  /\ statementsOf (opposite d) (appendTo d doc b)
     = statementsOf (opposite d) doc
  /\ disableTransactionOf d (appendTo d doc b) = disableTransactionOf d doc.
Proof. intros D. destruct d; [congruence | |]; repeat split. Qed.

Lemma disable_statements (d : migrationDirection) (doc : ParsedMigration) :
  d <> directionNone ->
  statementsOf d (disable d doc) = statementsOf d doc
  /\ statementsOf (opposite d) (disable d doc) = statementsOf (opposite d) doc
  /\ disableTransactionOf d (disable d doc) = true.
Proof. intros D. destruct d; [congruence | |]; repeat split. Qed.

Lemma writeLine_nonempty (buf l : string) : writeLine buf l <> "".
Proof. unfold writeLine. destruct buf, l; discriminate. Qed.

(** A [StatementBegin] block from a state outside any block. *)
Lemma block_region_run (d : migrationDirection) (doc : ParsedMigration)
  (beginLine endLine : string) (beginCmd endCmd : migrateCommand)
  (body rest : list string) :
  d <> directionNone ->
  parseCommand beginLine = Ok beginCmd ->
  Command beginCmd = "StatementBegin" ->
  parseCommand endLine = Ok endCmd -> Command endCmd = "StatementEnd" ->
  forallb (fun l => negb (isAnnotation l)) body = true ->
  processLines sep (gathering d doc "")
    (beginLine :: body ++ endLine :: rest)
  = processLines sep
      (gathering d (appendTo d doc (mkStatement (bodyText body) false "")) "")
      rest.
Proof.
  intros D HB NB HE NE A. cbn [processLines].
  rewrite (StatementBegin_line sep d doc "" _ _ HB NB D). cbn [bind].
  rewrite (block_run sep d doc body _ "" D A). cbn [processLines append].
  rewrite (StatementEnd_line sep d doc _ _ _ HE NE D). reflexivity.
Qed.

End Documents.

Section Loops.

Variable sep : string.

Lemma loopText_app (a b : list string) :
  loopText (a ++ b) = loopText a ++ loopText b.
Proof.
  induction a as [|l a IH]; cbn [app loopText append]; [reflexivity|].
  destruct (isPlainComment l); [exact IH|].
  now rewrite IH, !append_assoc.
Qed.

Lemma annotation_kept (l : string) (cmd : migrateCommand) :
  parseCommand l = Ok cmd -> isPlainComment l = false.
Proof.
  intros H. apply parseCommand_annotation, isAnnotation_plus in H.
  unfold isPlainComment. rewrite H. apply andb_false_r.
Qed.

Ltac flatten :=
  unfold writeLine, newline; rewrite ?append_assoc; cbn [append];
  rewrite ?append_empty_r.

(** A loop region from a state outside any block. *)
Lemma loop_region_run (d : migrationDirection) (doc : ParsedMigration)
  (loopBegin conditionalBegin query conditionalEnd loopEnd : string)
  (c1 c2 c3 c4 : migrateCommand) (body rest : list string) :
  d <> directionNone ->
  parseCommand loopBegin = Ok c1 -> Command c1 = "LoopBegin" ->
  parseCommand conditionalBegin = Ok c2 -> Command c2 = "ConditionalBegin" ->
  parseCommand conditionalEnd = Ok c3 -> Command c3 = "ConditionalEnd" ->
  parseCommand loopEnd = Ok c4 -> Command c4 = "LoopEnd" ->
  isAnnotation query = false ->
  forallb (fun l => negb (isAnnotation l)) body = true ->
  processLines sep (gathering d doc "")
    (loopBegin :: conditionalBegin :: query :: conditionalEnd
       :: body ++ loopEnd :: rest)
  = processLines sep
      (gathering d
         (appendTo d (disable d doc)
            (loopStatement loopBegin conditionalBegin query conditionalEnd
               body loopEnd))
         "")
      rest.
Proof.
  intros D H1 N1 H2 N2 H3 N3 H4 N4 Q A.
  pose proof (annotation_kept _ _ H1) as K1.
  pose proof (annotation_kept _ _ H2) as K2.
  pose proof (annotation_kept _ _ H3) as K3.
  pose proof (annotation_kept _ _ H4) as K4.
  cbn [processLines].
  rewrite (LoopBegin_line sep d doc "" _ _ H1 N1 D). cbn [bind].
  rewrite (ConditionalBegin_line sep d _ _ "" _ false _ H2 N2 D). cbn [bind].
  rewrite (loop_line sep d _ _ _ query true D Q).
  assert (C : (if isPlainComment query
               then inLoop d (disable d doc) (writeLine "" loopBegin)
                      (writeLine "" conditionalBegin) true
               else inLoop d (disable d doc) (writeLine "" loopBegin)
                      (writeLine (writeLine "" conditionalBegin) query) true)
              = inLoop d (disable d doc) (writeLine "" loopBegin)
                  (loopText [conditionalBegin; query]) true).
  { cbn [loopText]. rewrite K2. destruct (isPlainComment query); flatten;
      reflexivity. }
  rewrite C. cbn [bind].
  rewrite (ConditionalEnd_line sep d _ _ _ _ true _ H3 N3 D). cbn [bind].
  rewrite (loop_run sep d _ body _ _ _ D A). cbn [processLines].
  rewrite (LoopEnd_line sep d _ _ _ _ _ H4 N4 D). cbn [bind].
  unfold loopStatement. do 4 f_equal.
  cbn [app loopText]. rewrite K1, K3, loopText_app. cbn [loopText].
  rewrite K4. flatten. reflexivity.
Qed.

End Loops.

Section Frames.

Variable sep : string.

Lemma processLines_app (a b : list string) (st : state) :
  processLines sep st (a ++ b)
  = (st1 <- processLines sep st a ;; processLines sep st1 b).
Proof.
  revert st; induction a as [|l a IH]; intros st; cbn [app processLines bind].
  - reflexivity.
  - destruct (processLine sep st l); cbn [bind]; [apply IH | |]; reflexivity.
Qed.

Lemma scanTokens_error (pieces ts : list string) (readErr : option string)
  (e : error) :
  scanTokens pieces (option_map ErrStream readErr) = (ts, Some e) ->
  exists m, e = ErrStream m.
Proof.
  revert ts; induction pieces as [|l pieces IH]; intros ts; cbn [scanTokens].
  - destruct readErr; [|discriminate]. intros [= _ <-]. eauto.
  - destruct (_ <=? _)%N.
    + intros [= _ <-]. unfold ErrTooLong. eauto.
    + destruct (scanTokens pieces _) as [ts' e'].
      intros [= _ ->]. eapply IH. reflexivity.
Qed.

(** The commands touch neither buffer. *)
Lemma handleCommand_buffers (st st1 : state) (cmd : migrateCommand) :
  handleCommand sep st cmd = Ok st1 ->
  statementBuf st1 = statementBuf st /\ conditionalBuf st1 = conditionalBuf st.
Proof.
  unfold handleCommand. intros H.
  repeat match type of H with
         | context [if ?b then _ else _] => destruct b
         | context [match currentDirection ?s with _ => _ end] =>
             destruct (currentDirection s)
         end; inversion H; subst; split; reflexivity.
Qed.

Lemma applyCommand_buffers (st st1 : state) (l : string) :
  applyCommand sep st l = Ok st1 ->
  statementBuf st1 = statementBuf st /\ conditionalBuf st1 = conditionalBuf st.
Proof.
  unfold applyCommand. destruct (HasPrefix l sqlCmdPrefix).
  - destruct (parseCommand l) as [cmd| |]; try discriminate.
    apply handleCommand_buffers.
  - intros [= <-]. split; reflexivity.
Qed.

(** Outside a loop, the appends leave out the lines that start with "-- +"
    and the separator line. *)
Lemma accumulate_left_out (st : state) (l : string) :
  isLoop st = false ->
  HasPrefix l "-- +" = true \/ isLineSeparator sep st l = true ->
  accumulate sep st l = st.
Proof.
  intros L [H|H]; unfold accumulate; rewrite H, L;
    rewrite ?andb_false_r; cbn; rewrite L; reflexivity.
Qed.

Lemma processLines_no_panic (ls : list string) (st : state) (m : string) :
  consistent st -> processLines sep st ls <> Panic m.
Proof.
  revert st; induction ls as [|l ls IH]; intros st I; cbn [processLines].
  - discriminate.
  - destruct (processLine sep st l) as [st1| |] eqn:E; cbn [bind].
    + apply IH. eapply processLine_consistent; eauto.
    + discriminate.
    + intros [= ->]. now apply processLine_no_panic in E.
Qed.

(** No input makes the call panic. *)
Lemma ParseMigration_no_panic (r : ReadSeeker) (m : string) :
  ParseMigration sep r <> Panic m.
Proof.
  unfold ParseMigration. destruct (seekError r); [discriminate|].
  destruct (ScanLines r) as [lines scanErr].
  destruct (processLines sep initialState lines) as [st| |] eqn:E;
    cbn [bind].
  - destruct scanErr; [discriminate|]. unfold finalChecks.
    repeat match goal with
           | |- context [if ?b then _ else _] => destruct b
           | |- context [match currentDirection ?s with _ => _ end] =>
               destruct (currentDirection s)
           end; discriminate.
  - discriminate.
  - intros [= ->].
    now apply (processLines_no_panic _ _ _ initialState_consistent) in E.
Qed.

End Frames.

(** ** White space in a buffer *)

Lemma trimLeftFrom_allSpace (s : string) (k : nat) :
  allSpaceFrom k s = true -> trimLeftFrom k s = "".
Proof.
  revert k; induction s as [|c s IH]; intros k;
    cbn [allSpaceFrom trimLeftFrom]; [reflexivity|].
  destruct k; [|apply IH].
  destruct (spaceWidth (String c s)); [discriminate | apply IH].
Qed.

Lemma trimLeftFrom_text (s : string) (k : nat) :
  allSpaceFrom k s = false ->
  exists c t,
    trimLeftFrom k s = String c t /\ spaceWidth (String c t) = 0.
Proof.
  revert k; induction s as [|c s IH]; intros k;
    cbn [allSpaceFrom trimLeftFrom]; [discriminate|].
  destruct k; [|apply IH].
  destruct (spaceWidth (String c s)) eqn:W; [|apply IH].
  intros _. now exists c, s.
Qed.

(** The statement buffer "holds text" exactly when it is not made of
    white-space runes only. *)
Lemma holdsText_allSpace (buf : string) :
  holdsText buf = negb (allSpaceFrom 0 buf).
Proof.
  unfold holdsText, TrimSpace. destruct (allSpaceFrom 0 buf) eqn:A.
  - now rewrite (trimLeftFrom_allSpace buf 0 A).
  - destruct (trimLeftFrom_text buf 0 A) as (c & t & -> & W).
    cbn [trimRight allSpaceFrom]. rewrite W. reflexivity.
Qed.

(** ** The properties of the specification *)

(** C4.  A script that is a single Up annotation followed by N statements,
    each a run of lines of which the last, and only the last, ends with a
    semicolon for the boundary detector (none an annotation or the separator
    line), parses to a document whose upStatements are the N statements, in
    the order of the source, and whose downStatements are empty. *)
Theorem single_up_section_statements (sep upLine : string)
  (cmd : migrateCommand) (ss : list sqlStatement) :
  forallb isLine (upLine :: scriptLines ss) = true ->
  parseCommand upLine = Ok cmd -> Command cmd = "Up" ->
  matchesSeparator sep upLine = false ->
  forallb (semicolonTerminated sep) ss = true ->
  exists doc,
    ParseMigration sep (NewReader (joinLines (upLine :: scriptLines ss)))
    = Ok doc
    /\ UpStatements doc = map emitted ss
    /\ List.length (UpStatements doc) = List.length ss
    /\ DownStatements doc = [].
Proof.
  intros L H N S T.
  exists (appendAll directionUp
            (withOptions directionUp cmd (p initialState)) (map emitted ss)).
  assert (D : directionUp <> directionNone) by discriminate.
  rewrite (ParseMigration_joinLines sep _ L).
  rewrite <- (app_nil_r (scriptLines ss)).
  rewrite (section_run sep directionUp upLine cmd ss [] H N D S T).
  cbn [processLines bind]. rewrite (finalChecks_gathering sep _ _ D).
  rewrite appendAll_Up. cbn [UpStatements DownStatements].
  pose proof (withOptions_statements directionUp directionUp cmd
                (p initialState)) as U.
  pose proof (withOptions_statements directionUp directionDown cmd
                (p initialState)) as W.
  cbn [statementsOf] in U, W. rewrite U, W. cbn.
  now rewrite length_map.
Qed.

(** C10.  The working direction starts as Up: a script without any
    annotation whose lines form semicolon-terminated statements parses to a
    document that holds those statements, in order, in upStatements. *)
Theorem statements_before_any_annotation (sep : string)
  (ss : list sqlStatement) :
  forallb isLine (scriptLines ss) = true ->
  forallb (semicolonTerminated sep) ss = true ->
  currentDirection initialState = directionUp
  /\ ParseMigration sep (NewReader (joinLines (scriptLines ss)))
     = Ok {| UpStatements := map emitted ss; DownStatements := [];
             DisableTransactionUp := false;
             DisableTransactionDown := false |}.
Proof.
  intros L T. split; [reflexivity|].
  assert (D : directionUp <> directionNone) by discriminate.
  rewrite (ParseMigration_joinLines sep _ L).
  rewrite <- (app_nil_r (scriptLines ss)).
  change initialState with (gathering directionUp (p initialState) "").
  rewrite (statements_run sep directionUp ss _ [] D T).
  cbn [processLines bind]. rewrite (finalChecks_gathering sep _ _ D).
  now rewrite appendAll_Up.
Qed.

(** C5.  In the section of a direction, a body wrapped in a StatementBegin
    line and a StatementEnd line yields exactly one block, between the blocks
    of the statements before and after the region.  Its text is the body,
    whatever semicolons the body lines hold: every line that does not start
    with "-- ", each followed by a newline; so the whole body verbatim when
    no body line starts with "-- ". *)
Theorem statement_block_is_one_statement (sep : string)
  (d : migrationDirection) (dirLine beginLine endLine : string)
  (dirCmd beginCmd endCmd : migrateCommand)
  (before after : list sqlStatement) (body : list string) :
  let script :=
    (dirLine :: scriptLines before
       ++ beginLine :: body ++ endLine :: scriptLines after)%list in
  forallb isLine script = true ->
  d <> directionNone ->
  parseCommand dirLine = Ok dirCmd -> Command dirCmd = directionName d ->
  matchesSeparator sep dirLine = false ->
  parseCommand beginLine = Ok beginCmd ->
  Command beginCmd = "StatementBegin" ->
  parseCommand endLine = Ok endCmd -> Command endCmd = "StatementEnd" ->
  forallb (fun l => negb (isAnnotation l)) body = true ->
  forallb (semicolonTerminated sep) before = true ->
  forallb (semicolonTerminated sep) after = true ->
  exists doc,
    ParseMigration sep (NewReader (joinLines script)) = Ok doc
    /\ statementsOf d doc
       = (map emitted before
            ++ [mkStatement (bodyText body) false ""]
            ++ map emitted after)%list
    /\ statementsOf (opposite d) doc = []
    /\ (forallb (fun l => negb (HasPrefix l "-- ")) body = true ->
        bodyText body = joinLines body).
Proof.
  intros script L D HD ND S HB NB HE NE A T1 T2.
  eexists. rewrite (ParseMigration_joinLines sep _ L). unfold script.
  rewrite (section_run sep d dirLine dirCmd before _ HD ND D S T1).
  rewrite (block_region_run sep d _ _ _ _ _ body _ D HB NB HE NE A).
  rewrite <- (app_nil_r (scriptLines after)).
  rewrite (statements_run sep d after _ [] D T2).
  cbn [processLines bind]. rewrite (finalChecks_gathering sep _ _ D).
  split; [reflexivity|].
  destruct (appendAll_statements d
              (appendTo d
                 (appendAll d (withOptions d dirCmd (p initialState))
                    (map emitted before))
                 (mkStatement (bodyText body) false ""))
              (map emitted after) D) as (-> & -> & _).
  destruct (appendTo_statements d
              (appendAll d (withOptions d dirCmd (p initialState))
                 (map emitted before))
              (mkStatement (bodyText body) false "") D) as (-> & -> & _).
  destruct (appendAll_statements d (withOptions d dirCmd (p initialState))
              (map emitted before) D) as (-> & -> & _).
  rewrite !withOptions_statements.
  repeat split.
  - destruct d; [congruence | |]; cbn; now rewrite <- app_assoc.
  - destruct d; [congruence | |]; reflexivity.
  - apply bodyText_verbatim.
Qed.

(** C3.  In the section of a direction, a region made of a LoopBegin line, a
    ConditionalBegin line, a query line, a ConditionalEnd line, further lines
    and a LoopEnd line yields exactly one block, between the blocks of the
    statements before and after the region; the block is a loop, its
    conditional text is not empty, and the transaction of the direction is
    disabled, with or without the notransaction option. *)
Theorem loop_region_is_one_loop_block (sep : string)
  (d : migrationDirection)
  (dirLine loopBegin conditionalBegin query conditionalEnd loopEnd : string)
  (dirCmd c1 c2 c3 c4 : migrateCommand)
  (before after : list sqlStatement) (body : list string) :
  let script :=
    (dirLine :: scriptLines before
       ++ loopBegin :: conditionalBegin :: query :: conditionalEnd
       :: body ++ loopEnd :: scriptLines after)%list in
  forallb isLine script = true ->
  d <> directionNone ->
  parseCommand dirLine = Ok dirCmd -> Command dirCmd = directionName d ->
  matchesSeparator sep dirLine = false ->
  parseCommand loopBegin = Ok c1 -> Command c1 = "LoopBegin" ->
  parseCommand conditionalBegin = Ok c2 -> Command c2 = "ConditionalBegin" ->
  parseCommand conditionalEnd = Ok c3 -> Command c3 = "ConditionalEnd" ->
  parseCommand loopEnd = Ok c4 -> Command c4 = "LoopEnd" ->
  isAnnotation query = false ->
  forallb (fun l => negb (isAnnotation l)) body = true ->
  forallb (semicolonTerminated sep) before = true ->
  forallb (semicolonTerminated sep) after = true ->
  exists doc block,
    ParseMigration sep (NewReader (joinLines script)) = Ok doc
    /\ statementsOf d doc
       = (map emitted before ++ [block] ++ map emitted after)%list
    /\ statementsOf (opposite d) doc = []
    /\ Loop block = true
    /\ Conditional block <> ""
    /\ disableTransactionOf d doc = true.
Proof.
  intros script L D HD ND S H1 N1 H2 N2 H3 N3 H4 N4 Q A T1 T2.
  eexists.
  exists (loopStatement loopBegin conditionalBegin query conditionalEnd
            body loopEnd).
  rewrite (ParseMigration_joinLines sep _ L). unfold script.
  rewrite (section_run sep d dirLine dirCmd before _ HD ND D S T1).
  rewrite (loop_region_run sep d _ _ _ _ _ _ _ _ _ _ body _
             D H1 N1 H2 N2 H3 N3 H4 N4 Q A).
  rewrite <- (app_nil_r (scriptLines after)).
  rewrite (statements_run sep d after _ [] D T2).
  cbn [processLines bind]. rewrite (finalChecks_gathering sep _ _ D).
  split; [reflexivity|].
  set (doc0 := withOptions d dirCmd (p initialState)).
  set (block := loopStatement _ _ _ _ _ _).
  destruct (appendAll_statements d
              (appendTo d (disable d (appendAll d doc0 (map emitted before)))
                 block)
              (map emitted after) D) as (-> & -> & ->).
  destruct (appendTo_statements d
              (disable d (appendAll d doc0 (map emitted before)))
              block D) as (-> & -> & ->).
  destruct (disable_statements d (appendAll d doc0 (map emitted before)) D)
    as (-> & -> & ->).
  destruct (appendAll_statements d doc0 (map emitted before) D)
    as (-> & -> & _).
  unfold doc0. rewrite !withOptions_statements.
  repeat split.
  - destruct d; [congruence | |]; cbn; now rewrite <- app_assoc.
  - destruct d; [congruence | |]; reflexivity.
  - unfold block, loopStatement. cbn [Conditional loopText].
    rewrite (annotation_kept _ _ H2).
    destruct conditionalBegin; discriminate.
Qed.

(** C6.  Whenever ParseMigration returns a document, every block of its
    upStatements and of its downStatements with a non-empty conditional text
    is a loop. *)
Theorem conditional_text_only_on_loops (sep : string) (r : ReadSeeker)
  (doc : ParsedMigration) :
  ParseMigration sep r = Ok doc ->
  Forall conditionalOnlyInLoop (UpStatements doc)
  /\ Forall conditionalOnlyInLoop (DownStatements doc).
Proof.
  unfold ParseMigration. destruct (seekError r); [discriminate|].
  destruct (ScanLines r) as [lines scanErr].
  destruct (processLines sep initialState lines) as [st| |] eqn:E;
    try discriminate.
  cbn [bind]. destruct scanErr; [discriminate|].
  apply processLines_consistent in E; [|exact initialState_consistent].
  destruct E as (_ & _ & U & W). unfold finalChecks.
  destruct (ignoreSemicolons st); [discriminate|].
  destruct (isLoop st); [discriminate|].
  destruct (isConditional st); [discriminate|].
  destruct (currentDirection st); [discriminate | |];
    destruct (_ && _); try discriminate; intros [= <-]; now split.
Qed.

(** C7.  The checks after the loop, on the state [st] that the loop leaves,
    whatever that state is: they run in this order and the first failure
    wins.  A statement block still open gives the error of an open statement
    block, whatever the other variables hold; else a loop still open gives
    the error of an open loop; else a conditional still open gives the error
    of an open conditional; else no direction gives NoDirectionFound; else a
    statement buffer that holds a rune other than white space and does not
    start with "-- +" gives UnterminatedStatement; else the document is
    returned.  When the end of input is reached in [st], with no error of
    the stream, that outcome is the result of ParseMigration. *)
Theorem end_of_input_checks_in_order (sep : string) (st : state) :
  let result := finalChecks sep st in
  let pending :=
    negb (allSpaceFrom 0 (statementBuf st))
    && negb (HasPrefix (statementBuf st) "-- +") in
  (ignoreSemicolons st = true -> result = Err ErrUnterminatedStatementBlock)
  /\ (ignoreSemicolons st = false -> isLoop st = true ->
      result = Err ErrUnterminatedLoop)
  /\ (ignoreSemicolons st = false -> isLoop st = false ->
      isConditional st = true -> result = Err ErrUnterminatedConditional)
  /\ (ignoreSemicolons st = false -> isLoop st = false ->
      isConditional st = false -> currentDirection st = directionNone ->
      result = Err ErrNoDirectionFound)
  /\ (ignoreSemicolons st = false -> isLoop st = false ->
      isConditional st = false -> currentDirection st <> directionNone ->
      pending = true -> result = Err (ErrUnterminatedStatement sep))
  /\ (ignoreSemicolons st = false -> isLoop st = false ->
      isConditional st = false -> currentDirection st <> directionNone ->
      pending = false -> result = Ok (p st))
  /\ (forall (r : ReadSeeker) (lines : list string),
        seekError r = None ->
        ScanLines r = (lines, None) ->
        processLines sep initialState lines = Ok st ->
        ParseMigration sep r = result).
Proof.
  intros result pending.
  assert (L : forall r lines,
             seekError r = None -> ScanLines r = (lines, None) ->
             processLines sep initialState lines = Ok st ->
             ParseMigration sep r = result).
  { intros r lines K S E. unfold result, ParseMigration.
    now rewrite K, S, E. }
  unfold result, finalChecks, pending in *.
  rewrite <- (holdsText_allSpace (statementBuf st)).
  repeat split; try exact L; clear L; intros;
    repeat match goal with
           | H : _ = _ |- _ => rewrite H
           end; try reflexivity;
    destruct (currentDirection st) eqn:?; try congruence; reflexivity.
Qed.

(** C1, as the code has it.  ParseMigration never fails with
    NoDirectionFound: the working direction starts as Up and no iteration of
    the loop sets it to None, so a script without an Up or a Down annotation
    is parsed as an Up section. *)
Theorem never_NoDirectionFound (sep : string) (r : ReadSeeker) :
  ParseMigration sep r <> Err ErrNoDirectionFound
  /\ forall lines st,
       processLines sep initialState lines = Ok st ->
       currentDirection st <> directionNone.
Proof.
  split.
  - unfold ParseMigration. destruct (seekError r); [discriminate|].
    unfold ScanLines.
    destruct (scanTokens _ _) as [lines scanErr] eqn:S.
    destruct (processLines sep initialState lines) as [st| |] eqn:E;
      cbn [bind].
    + destruct scanErr as [e|].
      * apply scanTokens_error in S as [m ->]. discriminate.
      * apply processLines_consistent in E;
          [|exact initialState_consistent].
        destruct E as (D & _). unfold finalChecks.
        destruct (ignoreSemicolons st); [discriminate|].
        destruct (isLoop st); [discriminate|].
        destruct (isConditional st); [discriminate|].
        destruct (currentDirection st); [congruence | |];
          destruct (_ && _); discriminate.
    + intros [= ->]. now apply processLines_error in E as [E _].
    + discriminate.
  - intros lines st E.
    apply processLines_consistent in E; [|exact initialState_consistent].
    exact (proj1 E).
Qed.

(** C1, as the claim states it, fails: the script [SELECT 1;] holds no Up
    and no Down annotation, and ParseMigration returns a document. *)
Lemma bare_script_returns_document :
  existsb (fun l => HasPrefix l "-- +migrate Up"
                    || HasPrefix l "-- +migrate Down")
          (fst (ScanLines (NewReader Examples.bareScript))) = false
  /\ ParseMigration "" (NewReader Examples.bareScript)
     = Ok {| UpStatements :=
               [mkStatement ("SELECT 1;" ++ newline) false ""];
             DownStatements := [];
             DisableTransactionUp := false;
             DisableTransactionDown := false |}
  /\ ParseMigration "" (NewReader Examples.bareScript)
     <> Err ErrNoDirectionFound.
Proof. repeat split. discriminate. Qed.

(** C9, as the code has it.  A line that starts with "-- " and not with
    "-- +" is discarded entirely: the iteration leaves the state as it was,
    and a script parses as it does without the line. *)
Theorem plain_comment_discarded (sep : string) (l : string) :
  isPlainComment l = true ->
  (forall st, processLine sep st l = Ok st)
  /\ (forall st before after,
        processLines sep st (before ++ l :: after)
        = processLines sep st (before ++ after)).
Proof.
  intros C. split; [intros st; now apply processLine_comment|].
  intros st before after. rewrite !processLines_app.
  destruct (processLines sep st before) as [st1| |]; cbn [bind processLines];
    try reflexivity.
  now rewrite processLine_comment.
Qed.

(** C9, as the claim states it, fails: the line [--x] starts with a double
    dash and not with the command prefix, and it is appended to the statement
    buffer; at the end of a script it is an unterminated statement. *)
Lemma tight_comment_appended :
  HasPrefix Examples.tightComment "--" = true
  /\ isAnnotation Examples.tightComment = false
  /\ processLine "" initialState Examples.tightComment
     = Ok (setStatementBuf initialState ("--x" ++ newline))
  /\ ParseMigration ""
       (NewReader (joinLines [Examples.up; Examples.tightComment]))
     = Err (ErrUnterminatedStatement "")
  /\ ParseMigration "" (NewReader (joinLines [Examples.up]))
     = Ok (p initialState).
Proof. repeat split. Qed.

(** C8, as the code has it.  With a non-empty separator configured, a line
    that the loop body does not skip is a separator boundary exactly when
    the line as the scanner delivers it, untrimmed, equals the separator and
    the parser, once the command of the line is handled, is not ignoring
    semicolons.  Outside a loop such a line, when it is no annotation,
    concludes the statement and stays out of its text. *)
Theorem separator_is_exact_line_match (sep : string) (st : state)
  (l : string) :
  sep <> "" ->
  (isLineSeparator sep st l = true
   <-> l = sep /\ ignoreSemicolons st = false)
  /\ (isLineSeparator sep st l = true ->
      isAnnotation l = false -> isPlainComment l = false ->
      currentDirection st <> directionNone -> isLoop st = false ->
      processLine sep st l
      = Ok (afterFlush (setStatementEnded st false)
              (appendTo (currentDirection st) (p st)
                 (mkStatement (statementBuf st) false (conditionalBuf st))))).
Proof.
  intros N.
  assert (P : (0 <? String.length sep)%nat = true)
    by (destruct sep; [congruence | reflexivity]).
  split.
  - unfold isLineSeparator. rewrite P, andb_true_r, andb_true_iff.
    rewrite negb_true_iff, String.eqb_eq. tauto.
  - intros S A C D L. rewrite (processLine_text sep st l A C).
    rewrite (accumulate_left_out sep st l L (or_intror S)).
    unfold conclude. rewrite S.
    unfold isLineSeparator in S. apply andb_true_iff in S as [S _].
    apply andb_true_iff in S as [S _]. rewrite S, orb_true_r.
    cbn. rewrite L.
    destruct (currentDirection st); [congruence | |]; reflexivity.
Qed.

(** C8, as the claim states it, fails: with the separator [GO], the line
    [GO ] equals the separator once trimmed and the parser is not ignoring
    semicolons, yet the line is no boundary: it is appended to the statement
    buffer and nothing is concluded. *)
Lemma trimmed_line_is_no_separator :
  TrimSpace Examples.goSpace = Examples.go
  /\ ignoreSemicolons initialState = false
  /\ isLineSeparator Examples.go initialState Examples.goSpace = false
  /\ processLine Examples.go initialState Examples.goSpace
     = Ok (setStatementBuf initialState ("GO " ++ newline)).
Proof. repeat split. Qed.

(** C2, as the code has it.  While a direction is set and the parser, once
    the command of the line is handled, is outside a loop: a line that
    starts with the command prefix, or that is the separator line while
    semicolons are not ignored, is appended to neither buffer.  After the
    iteration each buffer is as before or was reset by a flush, and a block
    that the iteration emits holds the buffers as they were. *)
Theorem outside_loops_annotations_not_appended (sep : string)
  (st st1 : state) (l : string) :
  applyCommand sep st l = Ok st1 ->
  currentDirection st1 <> directionNone ->
  isLoop st1 = false ->
  isAnnotation l = true \/ isLineSeparator sep st1 l = true ->
  accumulate sep st1 l = st1
  /\ statementBuf st1 = statementBuf st
  /\ conditionalBuf st1 = conditionalBuf st
  /\ exists st',
       processLine sep st l = Ok st'
       /\ (statementBuf st' = statementBuf st \/ statementBuf st' = "")
       /\ (conditionalBuf st' = conditionalBuf st \/ conditionalBuf st' = "")
       /\ (p st' = p st1
           \/ p st' = appendTo (currentDirection st1) (p st1)
                        (mkStatement (statementBuf st) false
                           (conditionalBuf st))).
Proof.
  intros C D L K.
  destruct (applyCommand_buffers sep st st1 l C) as [B1 B2].
  assert (A : accumulate sep st1 l = st1).
  { apply accumulate_left_out; [exact L|].
    destruct K as [K|K]; [left; now apply isAnnotation_plus | now right]. }
  repeat split; try assumption.
  unfold processLine.
  destruct (HasPrefix l "-- " && negb (HasPrefix l "-- +")) eqn:Q.
  - exists st. repeat split; auto.
    assert (X : isAnnotation l = false).
    { destruct (isAnnotation l) eqn:X; [|reflexivity].
      apply isAnnotation_plus in X. rewrite X, andb_false_r in Q.
      discriminate. }
    unfold applyCommand in C. unfold isAnnotation in X.
    rewrite X in C. injection C as <-. now left.
  - rewrite C. cbn [bind]. rewrite A. unfold conclude.
    destruct (_ || _).
    + cbn. destruct (currentDirection st1) eqn:E; [congruence | |];
        eexists; (split; [reflexivity|]); cbn; rewrite L, B1, B2; auto.
    + exists st1. destruct (currentDirection st1); [congruence | |];
        repeat split; auto.
Qed.

(** C2, as the claim states it, fails, in two ways.  Inside a
    StatementBegin block, where semicolons are ignored, the separator line
    is text of the block.  And with the direction Up set, the line of a
    LoopBegin annotation is appended to the statement buffer: the block of a
    loop holds the text of its annotation lines, the ConditionalBegin line
    in its conditional text. *)
Lemma separator_and_annotations_appended :
  (matchesSeparator Examples.go Examples.go = true
   /\ processLine Examples.go
        (inBlock directionUp (p initialState) "") Examples.go
      = Ok (inBlock directionUp (p initialState) ("GO" ++ newline))
   /\ ParseMigration Examples.go
        (NewReader
           (joinLines [Examples.up; Examples.statementBegin; "SELECT 1";
                       Examples.go; Examples.statementEnd]))
      = Ok {| UpStatements :=
                [mkStatement (joinLines ["SELECT 1"; Examples.go]) false ""];
              DownStatements := [];
              DisableTransactionUp := false;
              DisableTransactionDown := false |})
  /\ isAnnotation Examples.loopBegin = true
  /\ currentDirection initialState = directionUp
  /\ statementBuf initialState = ""
  /\ (exists st',
        processLine "" initialState Examples.loopBegin = Ok st'
        /\ statementBuf st' = "-- +migrate LoopBegin" ++ newline)
  /\ ParseMigration ""
       (NewReader
          (joinLines [Examples.up; Examples.loopBegin;
                      Examples.conditionalBegin; Examples.loopQuery;
                      Examples.conditionalEnd; Examples.loopEnd]))
     = Ok {| UpStatements :=
               [mkStatement
                  (joinLines [Examples.loopBegin; Examples.conditionalEnd;
                              Examples.loopEnd])
                  true
                  (joinLines [Examples.conditionalBegin;
                              Examples.loopQuery])];
             DownStatements := [];
             DisableTransactionUp := true;
             DisableTransactionDown := false |}.
Proof.
  repeat split. eexists. split; reflexivity.
Qed.

(** ** The properties on the example scripts *)

(** C4 on an Up section of two statements. *)
Lemma single_up_section_example :
  exists doc,
    ParseMigration ""
      (NewReader
         (joinLines
            (Examples.up
               :: scriptLines [Examples.addColumn; Examples.backfill])))
    = Ok doc
    /\ UpStatements doc
       = map emitted [Examples.addColumn; Examples.backfill]
    /\ List.length (UpStatements doc) = 2
    /\ DownStatements doc = [].
Proof.
  apply (single_up_section_statements "" Examples.up (Examples.command "Up")
           [Examples.addColumn; Examples.backfill]); reflexivity.
Defined.

(** C10 on the same statements without the Up line, with a separator
    configured. *)
Lemma statements_before_any_annotation_example :
  currentDirection initialState = directionUp
  /\ ParseMigration Examples.go
       (NewReader
          (joinLines (scriptLines [Examples.addColumn; Examples.backfill])))
     = Ok {| UpStatements :=
               map emitted [Examples.addColumn; Examples.backfill];
             DownStatements := [];
             DisableTransactionUp := false;
             DisableTransactionDown := false |}.
Proof.
  apply (statements_before_any_annotation Examples.go
           [Examples.addColumn; Examples.backfill]); reflexivity.
Defined.

(** C5 on a function body in a Down section, between two statements. *)
Lemma statement_block_example :
  exists doc,
    ParseMigration "" (NewReader (joinLines Examples.blockScript)) = Ok doc
    /\ statementsOf directionDown doc
       = (map emitted [Examples.dropColumn]
            ++ [mkStatement (bodyText Examples.functionBody) false ""]
            ++ map emitted [Examples.addColumn])%list
    /\ statementsOf (opposite directionDown) doc = []
    /\ (forallb (fun l => negb (HasPrefix l "-- ")) Examples.functionBody
        = true ->
        bodyText Examples.functionBody = joinLines Examples.functionBody).
Proof.
  apply (statement_block_is_one_statement "" directionDown
           Examples.down Examples.statementBegin Examples.statementEnd
           (Examples.command "Down") (Examples.command "StatementBegin")
           (Examples.command "StatementEnd")
           [Examples.dropColumn] [Examples.addColumn]
           Examples.functionBody);
    reflexivity || discriminate.
Defined.

(** C3 on a loop in an Up section, between two statements. *)
Lemma loop_region_example :
  exists doc block,
    ParseMigration "" (NewReader (joinLines Examples.loopScript)) = Ok doc
    /\ statementsOf directionUp doc
       = (map emitted [Examples.addColumn] ++ [block]
            ++ map emitted [Examples.backfill])%list
    /\ statementsOf (opposite directionUp) doc = []
    /\ Loop block = true
    /\ Conditional block <> ""
    /\ disableTransactionOf directionUp doc = true.
Proof.
  apply (loop_region_is_one_loop_block "" directionUp
           Examples.upNoTransaction Examples.loopBegin
           Examples.conditionalBegin Examples.loopQuery
           Examples.conditionalEnd Examples.loopEnd
           {| Command := "Up"; Options := ["notransaction"] |}
           (Examples.command "LoopBegin")
           (Examples.command "ConditionalBegin")
           (Examples.command "ConditionalEnd")
           (Examples.command "LoopEnd")
           [Examples.addColumn] [Examples.backfill] Examples.loopBody);
    reflexivity || discriminate.
Defined.

(** C6 on the document of the short loop script. *)
Lemma conditional_text_example :
  Forall conditionalOnlyInLoop
    [mkStatement
       (joinLines [Examples.loopBegin; "SELECT 1;"; Examples.loopEnd])
       true ""]
  /\ Forall conditionalOnlyInLoop [].
Proof.
  exact (conditional_text_only_on_loops ""
           (NewReader (joinLines Examples.shortLoopScript))
           {| UpStatements :=
                [mkStatement
                   (joinLines [Examples.loopBegin; "SELECT 1;";
                               Examples.loopEnd])
                   true ""];
              DownStatements := [];
              DisableTransactionUp := true;
              DisableTransactionDown := false |}
           eq_refl).
Defined.

(** C7 on states that hold several failures at once, where the first in
    the order wins, and on two scripts: one whose statement lacks its
    semicolon, where the first four checks pass and the fifth fails, and one
    where all pass. *)
Lemma end_of_input_checks_example :
  finalChecks ""
    (mkState (p initialState) "x" "" false true directionNone true true)
  = Err ErrUnterminatedStatementBlock
  /\ finalChecks ""
       (mkState (p initialState) "x" "" false false directionNone true true)
     = Err ErrUnterminatedLoop
  /\ finalChecks ""
       (mkState (p initialState) "x" "" false false directionNone false true)
     = Err ErrUnterminatedConditional
  /\ finalChecks ""
       (mkState (p initialState) "x" "" false false directionNone false
          false)
     = Err ErrNoDirectionFound
  /\ ParseMigration "" (NewReader (joinLines Examples.openScript))
     = Err (ErrUnterminatedStatement "")
  /\ ParseMigration "" (NewReader (joinLines [Examples.up]))
     = Ok (p initialState).
Proof.
  refine (conj _ (conj _ (conj _ (conj _ (conj _ _))))).
  - apply (end_of_input_checks_in_order ""
             (mkState (p initialState) "x" "" false true directionNone true
                true)).
    reflexivity.
  - apply (end_of_input_checks_in_order ""
             (mkState (p initialState) "x" "" false false directionNone true
                true)); reflexivity.
  - apply (end_of_input_checks_in_order ""
             (mkState (p initialState) "x" "" false false directionNone
                false true)); reflexivity.
  - apply (end_of_input_checks_in_order ""
             (mkState (p initialState) "x" "" false false directionNone
                false false)); reflexivity.
  - destruct (end_of_input_checks_in_order ""
                (gathering directionUp (p initialState)
                   ("SELECT 1" ++ newline)))
      as (_ & _ & _ & _ & H & _ & L).
    rewrite (L (NewReader (joinLines Examples.openScript))
               Examples.openScript eq_refl eq_refl eq_refl).
    apply H; reflexivity || discriminate.
  - destruct (end_of_input_checks_in_order ""
                (gathering directionUp (p initialState) ""))
      as (_ & _ & _ & _ & _ & H & L).
    rewrite (L (NewReader (joinLines [Examples.up])) [Examples.up]
               eq_refl eq_refl eq_refl).
    apply H; reflexivity || discriminate.
Defined.

(** C9 on a comment between the lines of a statement. *)
Lemma plain_comment_example :
  (forall st, processLine "" st "-- every row" = Ok st)
  /\ (forall st before after,
        processLines "" st (before ++ "-- every row" :: after)
        = processLines "" st (before ++ after)).
Proof.
  apply (plain_comment_discarded "" "-- every row"); reflexivity.
Defined.

(** C8 on the separator [GO] after a statement without a semicolon. *)
Lemma separator_example :
  (isLineSeparator Examples.go
     (gathering directionUp (p initialState) ("SELECT 1" ++ newline))
     Examples.go = true
   <-> Examples.go = Examples.go
       /\ ignoreSemicolons
            (gathering directionUp (p initialState) ("SELECT 1" ++ newline))
          = false)
  /\ processLine Examples.go
       (gathering directionUp (p initialState) ("SELECT 1" ++ newline))
       Examples.go
     = Ok (gathering directionUp
             (appendUp (p initialState)
                (mkStatement ("SELECT 1" ++ newline) false ""))
             "").
Proof.
  destruct (separator_is_exact_line_match Examples.go
              (gathering directionUp (p initialState)
                 ("SELECT 1" ++ newline))
              Examples.go)
    as [I E]; [discriminate|].
  split; [exact I|].
  apply E; reflexivity || discriminate.
Defined.

(** C2 on a Down annotation after a flushed statement. *)
Lemma annotation_not_appended_example :
  exists st',
    processLine "" initialState Examples.down = Ok st'
    /\ (statementBuf st' = "" \/ statementBuf st' = "")
    /\ (conditionalBuf st' = "" \/ conditionalBuf st' = "")
    /\ (p st' = p initialState
        \/ p st' = appendTo directionDown (p initialState)
                     (mkStatement "" false "")).
Proof.
  destruct (outside_loops_annotations_not_appended ""
              initialState
              (gathering directionDown (p initialState) "")
              Examples.down)
    as (_ & _ & _ & H);
    [reflexivity | discriminate | reflexivity | left; reflexivity |].
  exact H.
Defined.

(** ** Further properties: the nesting of blocks *)

#[local] Arguments holdsText : simpl never.

Section Nesting.

Variable sep : string.

Ltac cases H :=
  repeat match type of H with
         | context [if ?b then _ else _] => destruct b eqn:?
         | context [match currentDirection ?s with _ => _ end] =>
             destruct (currentDirection s) eqn:?
         end.

Lemma initialState_wellNested : wellNested initialState.
Proof. unfold wellNested; simpl. repeat split; congruence. Qed.

Lemma handleCommand_nested (st st1 : state) (cmd : migrateCommand) :
  wellNested st -> handleCommand sep st cmd = Ok st1 ->
  currentDirection st1 <> directionNone
  /\ (isConditional st1 = true -> isLoop st1 = true)
  /\ (isLoop st1 = true ->
      ignoreSemicolons st1 = true \/ statementEnded st1 = true)
  /\ (statementEnded st1 = true -> isConditional st1 = false).
Proof.
  intros (D & E & L & C) H. unfold handleCommand in H.
  cases H; inversion H; subst; clear H; simpl in *;
    repeat split; intros; try congruence; auto;
    repeat match goal with
           | X : _ || _ = false |- _ => apply orb_false_iff in X as [? ?]
           | X : negb _ = false |- _ => apply negb_false_iff in X
           | X : negb _ = true |- _ => apply negb_true_iff in X
           end; try congruence; auto.
Qed.

Lemma accumulate_flags (st : state) (l : string) :
  currentDirection (accumulate sep st l) = currentDirection st
  /\ statementEnded (accumulate sep st l) = statementEnded st
  /\ ignoreSemicolons (accumulate sep st l) = ignoreSemicolons st
  /\ isLoop (accumulate sep st l) = isLoop st
  /\ isConditional (accumulate sep st l) = isConditional st
  /\ p (accumulate sep st l) = p st.
Proof.
  destruct st as [d sb cb e i dir lp cd]. unfold accumulate.
  destruct (_ && _); cbn; destruct lp; cbn; try destruct cd; cbn;
    repeat split.
Qed.

Lemma conclude_nested (st st' : state) (l : string) (b : bool) :
  currentDirection st <> directionNone ->
  (isConditional st = true -> isLoop st = true) ->
  (isLoop st = true -> ignoreSemicolons st = true \/ statementEnded st = true) ->
  (statementEnded st = true -> isConditional st = false) ->
  conclude st l b = Ok st' -> wellNested st'.
Proof.
  intros D C L E H. unfold conclude in H.
  destruct (_ || _) eqn:F.
  - assert (N : isConditional st = false).
    { destruct (statementEnded st) eqn:S; [now apply E|].
      rewrite orb_false_r in F. apply andb_true_iff in F as [F _].
      apply negb_true_iff in F.
      destruct (isConditional st) eqn:X; [|reflexivity].
      destruct (L (C eq_refl)); congruence. }
    cbn in H. destruct (currentDirection st) eqn:Q; [congruence | |];
      inversion H; subst; unfold wellNested; cbn; rewrite Q, N;
      repeat split; congruence.
  - inversion H; subst. apply orb_false_iff in F as [_ F].
    unfold wellNested. repeat split; auto.
    intros X. destruct (L X); congruence.
Qed.

Lemma processLine_wellNested (st st' : state) (l : string) :
  wellNested st -> processLine sep st l = Ok st' -> wellNested st'.
Proof.
  intros W H. unfold processLine in H.
  destruct (HasPrefix l "-- " && negb (HasPrefix l "-- +")).
  { now inversion H; subst. }
  assert (M : forall st1, applyCommand sep st l = Ok st1 ->
                currentDirection st1 <> directionNone
                /\ (isConditional st1 = true -> isLoop st1 = true)
                /\ (isLoop st1 = true ->
                    ignoreSemicolons st1 = true \/ statementEnded st1 = true)
                /\ (statementEnded st1 = true -> isConditional st1 = false)).
  { intros st1. unfold applyCommand. destruct (HasPrefix l sqlCmdPrefix).
    - destruct (parseCommand l) as [cmd| |]; try discriminate.
      now apply handleCommand_nested.
    - intros [= <-]. destruct W as (D & E & L & C).
      repeat split; auto. congruence. }
  destruct (applyCommand sep st l) as [st1| |]; try discriminate.
  cbn [bind] in H. destruct (M st1 eq_refl) as (D & C & L & E).
  destruct (accumulate_flags st1 l) as (A1 & A2 & A3 & A4 & A5 & _).
  destruct (currentDirection st1) eqn:Q; [congruence | |];
    (eapply conclude_nested; [| | | |exact H]);
    rewrite ?A1, ?A2, ?A3, ?A4, ?A5; auto; congruence.
Qed.

Lemma processLines_wellNested (ls : list string) (st st' : state) :
  wellNested st -> processLines sep st ls = Ok st' -> wellNested st'.
Proof.
  revert st; induction ls as [|l ls IH]; intros st W H; cbn in H.
  - now inversion H; subst.
  - destruct (processLine sep st l) as [st1| |] eqn:E; try discriminate.
    eapply IH; [|exact H]. eapply processLine_wellNested; eauto.
Qed.

End Nesting.

Section Errors.

Variable sep : string.

Lemma processLine_annotationError (st : state) (l : string) (e : error) :
  processLine sep st l = Err e -> annotationError sep e.
Proof.
  intros H. unfold processLine, applyCommand in H.
  destruct (HasPrefix l "-- " && negb (HasPrefix l "-- +"));
    [discriminate|].
  assert (C : forall s b, conclude s l b <> Err e).
  { intros s b. unfold conclude.
    destruct (_ || _); [|discriminate].
    destruct (currentDirection _); discriminate. }
  destruct (HasPrefix l sqlCmdPrefix) eqn:A.
  - unfold parseCommand in H. rewrite A in H. cbn [negb] in H.
    destruct (Fields _) as [|name options].
    { inversion H; subst. now left. }
    cbn [bind] in H.
    destruct (handleCommand sep st _) as [st1| |] eqn:E; try discriminate.
    + cbn [bind] in H. destruct (currentDirection st1); try discriminate;
        now apply C in H.
    + cbn [bind] in H. inversion H; subst. clear H C.
      unfold handleCommand in E. unfold annotationError.
      repeat match type of E with
             | context [if ?b then _ else _] => destruct b
             | context [match currentDirection ?s with _ => _ end] =>
                 destruct (currentDirection s)
             end; inversion E; subst; tauto.
  - cbn [bind] in H. destruct (currentDirection st); try discriminate;
      now apply C in H.
Qed.

Lemma processLines_annotationError (ls : list string) (st : state)
  (e : error) :
  processLines sep st ls = Err e -> annotationError sep e.
Proof.
  revert st; induction ls as [|l ls IH]; intros st H; cbn in H.
  - discriminate.
  - destruct (processLine sep st l) as [st1| |] eqn:E; cbn in H.
    + eauto.
    + inversion H; subst. eapply processLine_annotationError; eauto.
    + discriminate.
Qed.

End Errors.

(** ** Further properties of the parser *)

(** X1.  No input makes ParseMigration panic: the [default] branch of the
    flush, [panic("impossible state")], is never reached. *)
Theorem ParseMigration_never_panics (sep : string) (r : ReadSeeker) :
  forall message, ParseMigration sep r <> Panic message.
Proof.
  intros m. unfold ParseMigration. destruct (seekError r); [discriminate|].
  destruct (ScanLines r) as [lines scanErr].
  destruct (processLines sep initialState lines) as [st| |] eqn:E;
    cbn [bind].
  - destruct scanErr; [discriminate|]. unfold finalChecks.
    repeat match goal with
           | |- context [if ?b then _ else _] => destruct b
           | |- context [match currentDirection ?s with _ => _ end] =>
               destruct (currentDirection s)
           end; discriminate.
  - discriminate.
  - intros [= ->].
    now apply (processLines_no_panic sep _ _ _ initialState_consistent) in E.
Qed.

(** X2.  Between two iterations of the loop, whatever the lines read so far:
    no flush is pending, a loop is open only while semicolons are ignored,
    and a conditional is open only inside a loop ("only true with isLoop"). *)
Theorem flags_nest (sep : string) (lines : list string) (st : state) :
  processLines sep initialState lines = Ok st ->
  statementEnded st = false
  /\ (isLoop st = true -> ignoreSemicolons st = true)
  /\ (isConditional st = true -> isLoop st = true).
Proof.
  intros H.
  apply processLines_wellNested in H; [|exact initialState_wellNested].
  destruct H as (_ & E & L & C). now repeat split.
Qed.

(** X3.  The errors of ParseMigration are those of a stream, the six that
    an annotation raises, an open statement block at the end of input and an
    unterminated last statement.  It never reports an unterminated loop, an
    unterminated conditional, a missing direction or "not a sql-migrate
    command": an open loop or conditional at the end of input is reported as
    an open statement block. *)
Theorem ParseMigration_errors (sep : string) (r : ReadSeeker) (e : error) :
  ParseMigration sep r = Err e ->
  (exists message, e = ErrStream message)
  \/ annotationError sep e
  \/ e = ErrUnterminatedStatementBlock
  \/ e = ErrUnterminatedStatement sep.
Proof.
  unfold ParseMigration. destruct (seekError r) as [m|].
  { intros [= <-]. left. eauto. }
  unfold ScanLines. destruct (scanTokens _ _) as [lines scanErr] eqn:S.
  destruct (processLines sep initialState lines) as [st| |] eqn:E;
    cbn [bind]; try discriminate.
  - destruct scanErr as [e'|].
    + intros [= <-]. left. now apply scanTokens_error in S.
    + apply processLines_wellNested in E; [|exact initialState_wellNested].
      destruct E as (D & _ & L & C). unfold finalChecks.
      destruct (ignoreSemicolons st) eqn:I.
      { intros [= <-]. tauto. }
      destruct (isLoop st) eqn:X; [now specialize (L eq_refl)|].
      destruct (isConditional st) eqn:Y; [now specialize (C eq_refl)|].
      destruct (currentDirection st); [congruence | |];
        destruct (_ && _); try discriminate; intros [= <-];
        unfold errNoTerminator; tauto.
  - intros [= <-]. right. left.
    eapply processLines_annotationError; eauto.
Qed.

Section FirstError.

Variable sep : string.

(** The first line that fails decides the result. *)
Lemma first_error (before rest : list string) (l : string) (st : state)
  (e : error) :
  forallb isLine (before ++ l :: rest) = true ->
  processLines sep initialState before = Ok st ->
  processLine sep st l = Err e ->
  ParseMigration sep (NewReader (joinLines (before ++ l :: rest))) = Err e.
Proof.
  intros L B E. rewrite (ParseMigration_joinLines sep _ L).
  rewrite processLines_app, B. cbn [bind processLines]. now rewrite E.
Qed.

Lemma command_error (st : state) (l : string) (cmd : migrateCommand)
  (e : error) :
  parseCommand l = Ok cmd -> handleCommand sep st cmd = Err e ->
  processLine sep st l = Err e.
Proof.
  intros H E. rewrite (processLine_command sep st l cmd H). now rewrite E.
Qed.

End FirstError.

(** X4.  A script that ends inside a StatementBegin block or inside a loop
    fails with the error of an open statement block, "saw StatementBegin with
    no matching StatementEnd", also when what is open is a loop. *)
Theorem open_block_at_end_of_input (sep : string) (d : migrationDirection)
  (dirLine opener : string) (dirCmd openCmd : migrateCommand)
  (before : list sqlStatement) (body : list string) :
  let script := (dirLine :: scriptLines before ++ opener :: body)%list in
  forallb isLine script = true ->
  d <> directionNone ->
  parseCommand dirLine = Ok dirCmd -> Command dirCmd = directionName d ->
  matchesSeparator sep dirLine = false ->
  forallb (semicolonTerminated sep) before = true ->
  parseCommand opener = Ok openCmd ->
  Command openCmd = "StatementBegin" \/ Command openCmd = "LoopBegin" ->
  forallb (fun l => negb (isAnnotation l)) body = true ->
  ParseMigration sep (NewReader (joinLines script))
  = Err ErrUnterminatedStatementBlock.
Proof.
  intros script L D HD ND S T HO NO A.
  rewrite (ParseMigration_joinLines sep _ L). unfold script.
  rewrite (section_run sep d dirLine dirCmd before _ HD ND D S T).
  cbn [processLines]. rewrite <- (app_nil_r body). destruct NO as [NO|NO].
  - rewrite (StatementBegin_line sep d _ "" _ _ HO NO D). cbn [bind].
    rewrite (block_run sep d _ body [] _ D A). reflexivity.
  - rewrite (LoopBegin_line sep d _ "" _ _ HO NO D). cbn [bind].
    rewrite (loop_run sep d _ body [] _ _ D A). reflexivity.
Qed.

(** X5.  A ConditionalBegin annotation read while no loop is open, whatever
    came before, fails with ConditionalOutsideLoop; the rest of the script is
    not looked at. *)
Theorem ConditionalBegin_outside_loop (sep : string)
  (before rest : list string) (l : string) (cmd : migrateCommand)
  (st : state) :
  forallb isLine (before ++ l :: rest) = true ->
  processLines sep initialState before = Ok st ->
  isLoop st = false ->
  parseCommand l = Ok cmd -> Command cmd = "ConditionalBegin" ->
  ParseMigration sep (NewReader (joinLines (before ++ l :: rest)))
  = Err ErrConditionalOutsideLoop.
Proof.
  intros L B X H N. apply (first_error sep _ _ _ st _ L B).
  apply (command_error sep st l cmd _ H).
  unfold handleCommand. rewrite N, X. reflexivity.
Qed.

(** X6.  Blocks do not nest: a StatementBegin annotation read inside a loop
    fails with the nested-statement-block error, and a LoopBegin annotation
    read while semicolons are ignored, inside a statement block or a loop,
    fails with the nested-loop error. *)
Theorem blocks_do_not_nest (sep : string)
  (before rest : list string) (l : string) (cmd : migrateCommand)
  (st : state) :
  forallb isLine (before ++ l :: rest) = true ->
  processLines sep initialState before = Ok st ->
  parseCommand l = Ok cmd ->
  let result :=
    ParseMigration sep (NewReader (joinLines (before ++ l :: rest))) in
  (Command cmd = "StatementBegin" -> isLoop st = true ->
   result = Err ErrNestedStatementBlock)
  /\ (Command cmd = "LoopBegin" -> ignoreSemicolons st = true ->
      result = Err ErrNestedLoop).
Proof.
  intros L B H result. unfold result. split; intros N X;
    apply (first_error sep _ _ _ st _ L B);
    apply (command_error sep st l cmd _ H);
    unfold handleCommand; rewrite N, X; reflexivity.
Qed.

(** X7.  A LoopEnd annotation read while a conditional is open fails with
    UnclosedConditional. *)
Theorem LoopEnd_with_open_conditional (sep : string)
  (before rest : list string) (l : string) (cmd : migrateCommand)
  (st : state) :
  forallb isLine (before ++ l :: rest) = true ->
  processLines sep initialState before = Ok st ->
  isConditional st = true ->
  parseCommand l = Ok cmd -> Command cmd = "LoopEnd" ->
  ParseMigration sep (NewReader (joinLines (before ++ l :: rest)))
  = Err ErrUnclosedConditional.
Proof.
  intros L B X H N. apply (first_error sep _ _ _ st _ L B).
  apply (command_error sep st l cmd _ H).
  unfold handleCommand. rewrite N, X. reflexivity.
Qed.

(** X8.  An Up or a Down annotation in the middle of a statement, after
    lines that hold text and do not end it, fails with UnterminatedStatement:
    a direction starts only on an empty statement buffer. *)
Theorem direction_switch_mid_statement (sep : string)
  (d d' : migrationDirection) (dirLine next : string)
  (dirCmd nextCmd : migrateCommand) (before : list sqlStatement)
  (pending rest : list string) :
  let script :=
    (dirLine :: scriptLines before ++ pending ++ next :: rest)%list in
  forallb isLine script = true ->
  d <> directionNone -> d' <> directionNone ->
  parseCommand dirLine = Ok dirCmd -> Command dirCmd = directionName d ->
  matchesSeparator sep dirLine = false ->
  forallb (semicolonTerminated sep) before = true ->
  forallb (openLine sep) pending = true ->
  holdsText (bodyText pending) = true ->
  parseCommand next = Ok nextCmd -> Command nextCmd = directionName d' ->
  ParseMigration sep (NewReader (joinLines script))
  = Err (ErrUnterminatedStatement sep).
Proof.
  intros script L D D' HD ND S T O P HN NN.
  rewrite (ParseMigration_joinLines sep _ L). unfold script.
  rewrite (section_run sep d dirLine dirCmd before _ HD ND D S T).
  rewrite (gather_run sep d _ pending _ "" D O). cbn [processLines append].
  rewrite (command_error sep _ next nextCmd (ErrUnterminatedStatement sep) HN).
  - reflexivity.
  - unfold handleCommand. rewrite NN.
    destruct d'; [congruence | |]; simpl; rewrite P; reflexivity.
Qed.

Section Ignored.

Variable sep : string.

Lemma ignored_line (st : state) (l : string) (cmd : migrateCommand) :
  wellNested st -> isLoop st = false ->
  parseCommand l = Ok cmd -> ignoredOutsideLoops (Command cmd) = true ->
  ignoreSemicolons st = true \/ matchesSeparator sep l = false ->
  processLine sep st l = Ok st.
Proof.
  intros (D & E & _ & C) X H G S.
  assert (Y : isConditional st = false).
  { destruct (isConditional st); [|reflexivity].
    specialize (C eq_refl). congruence. }
  destruct (annotation_facts l cmd H) as [P Q].
  rewrite (processLine_command sep st l cmd H).
  unfold ignoredOutsideLoops in G. apply negb_true_iff in G. cbn in G.
  repeat apply orb_false_iff in G as [?G G].
  assert (K : handleCommand sep st cmd = Ok st).
  { unfold handleCommand. rewrite G0, G1, G2, G3, G4, G5, Y, X. cbn.
    destruct st as [d sb cb e i dir lp cd]. cbn in *. subst.
    repeat match goal with
           | |- context [if ?b then _ else _] => destruct b
           end; reflexivity. }
  rewrite K. cbn [bind].
  rewrite (accumulate_left_out sep st l X (or_introl P)).
  unfold conclude. rewrite Q, E, isLineSeparator_spec.
  assert (Z : negb (ignoreSemicolons st)
              && (false || negb (ignoreSemicolons st)
                           && matchesSeparator sep l) || false = false).
  { destruct S as [-> | ->]; [reflexivity|].
    now rewrite andb_false_r, andb_false_r. }
  rewrite Z. destruct (currentDirection st); [congruence | |]; reflexivity.
Qed.

End Ignored.

(** X9.  While no loop is open, an annotation whose name is LoopEnd,
    ConditionalEnd or any name that the parser does not know is ignored: the
    script parses as it does without the line.  (The line must not be the
    separator line, unless a statement block is open.) *)
Theorem stray_annotation_ignored (sep : string)
  (before after : list string) (l : string) (cmd : migrateCommand)
  (st : state) :
  forallb isLine (before ++ l :: after) = true ->
  processLines sep initialState before = Ok st ->
  isLoop st = false ->
  parseCommand l = Ok cmd -> ignoredOutsideLoops (Command cmd) = true ->
  ignoreSemicolons st = true \/ matchesSeparator sep l = false ->
  ParseMigration sep (NewReader (joinLines (before ++ l :: after)))
  = ParseMigration sep (NewReader (joinLines (before ++ after))).
Proof.
  intros L B X H G S.
  assert (L' : forallb isLine (before ++ after) = true).
  { rewrite forallb_app in L |- *. cbn in L.
    apply andb_true_iff in L as [L1 L2].
    apply andb_true_iff in L2 as [_ L2]. now rewrite L1, L2. }
  rewrite (ParseMigration_joinLines sep _ L).
  rewrite (ParseMigration_joinLines sep _ L').
  rewrite !processLines_app, B. cbn [bind processLines].
  rewrite (ignored_line sep st l cmd); auto.
  eapply processLines_wellNested; [exact initialState_wellNested | exact B].
Qed.

(** X10.  A script with an Up section and then a Down section, each made of
    semicolon-terminated statements, parses to the statements of each
    section in its own list, in order; each transaction flag is set exactly
    when the line of its section carries the notransaction option. *)
Theorem up_then_down_sections (sep upLine downLine : string)
  (upCmd downCmd : migrateCommand) (ups downs : list sqlStatement) :
  let script :=
    (upLine :: scriptLines ups ++ downLine :: scriptLines downs)%list in
  forallb isLine script = true ->
  parseCommand upLine = Ok upCmd -> Command upCmd = "Up" ->
  parseCommand downLine = Ok downCmd -> Command downCmd = "Down" ->
  matchesSeparator sep upLine = false ->
  matchesSeparator sep downLine = false ->
  forallb (semicolonTerminated sep) ups = true ->
  forallb (semicolonTerminated sep) downs = true ->
  ParseMigration sep (NewReader (joinLines script))
  = Ok {| UpStatements := map emitted ups;
          DownStatements := map emitted downs;
          DisableTransactionUp := HasOption upCmd optionNoTransaction;
          DisableTransactionDown := HasOption downCmd optionNoTransaction |}.
Proof.
  intros script L HU NU HD ND SU SD TU TD.
  assert (DU : directionUp <> directionNone) by discriminate.
  assert (DD : directionDown <> directionNone) by discriminate.
  rewrite (ParseMigration_joinLines sep _ L). unfold script.
  rewrite (section_run sep directionUp upLine upCmd ups _ HU NU DU SU TU).
  cbn [processLines].
  rewrite (direction_line sep directionDown directionUp _ _ _ HD ND DD SD).
  cbn [bind]. rewrite <- (app_nil_r (scriptLines downs)).
  rewrite (statements_run sep directionDown downs _ [] DD TD).
  cbn [processLines bind]. rewrite (finalChecks_gathering sep _ _ DD).
  rewrite appendAll_Down, appendAll_Up. unfold withOptions.
  destruct (HasOption upCmd optionNoTransaction);
    destruct (HasOption downCmd optionNoTransaction); reflexivity.
Qed.

Lemma textOf_emitted (ss : list sqlStatement) :
  textOf (map emitted ss) = bodyText (scriptLines ss).
Proof.
  induction ss as [|s ss IH]; [reflexivity|].
  unfold scriptLines in *. cbn [map concat textOf emitted Statement].
  now rewrite bodyText_app, IH.
Qed.

(** X11.  Round trip: for a section of semicolon-terminated statements, the
    texts of the emitted blocks, one after the other, are the lines of the
    section that do not start with "-- ", each with its newline; with no such
    line, they are the script below its first line, byte for byte. *)
Theorem statement_texts_round_trip (sep : string) (d : migrationDirection)
  (dirLine : string) (dirCmd : migrateCommand) (ss : list sqlStatement) :
  forallb isLine (dirLine :: scriptLines ss) = true ->
  d <> directionNone ->
  parseCommand dirLine = Ok dirCmd -> Command dirCmd = directionName d ->
  matchesSeparator sep dirLine = false ->
  forallb (semicolonTerminated sep) ss = true ->
  exists doc,
    ParseMigration sep (NewReader (joinLines (dirLine :: scriptLines ss)))
    = Ok doc
    /\ textOf (statementsOf d doc) = bodyText (scriptLines ss)
    /\ (forallb (fun l => negb (HasPrefix l "-- ")) (scriptLines ss) = true ->
        textOf (statementsOf d doc) = joinLines (scriptLines ss)).
Proof.
  intros L D H N S T. eexists.
  rewrite (ParseMigration_joinLines sep _ L).
  rewrite <- (app_nil_r (scriptLines ss)).
  rewrite (section_run sep d dirLine dirCmd ss [] H N D S T).
  cbn [processLines bind]. rewrite (finalChecks_gathering sep _ _ D).
  split; [reflexivity|].
  destruct (appendAll_statements d (withOptions d dirCmd (p initialState))
              (map emitted ss) D) as (-> & _ & _).
  rewrite withOptions_statements.
  assert (E : statementsOf d (p initialState) = [])
    by (destruct d; reflexivity).
  rewrite E. cbn [app]. rewrite textOf_emitted, app_nil_r.
  split; [reflexivity|]. apply bodyText_verbatim.
Qed.

(** ** Further properties: the scanner *)

Lemma length_append (a b : string) :
  String.length (a ++ b) = String.length a + String.length b.
Proof. induction a as [|c a IH]; cbn; [reflexivity | now rewrite IH]. Qed.

Lemma substring_tail (a b : string) :
  substring (String.length a) (String.length b) (a ++ b) = b.
Proof.
  induction a as [|c a IH]; cbn [String.length append substring].
  - induction b as [|c b IH]; cbn; [reflexivity | now rewrite IH].
  - exact IH.
Qed.

Lemma substring_head (a b : string) :
  substring 0 (String.length a) (a ++ b) = a.
Proof.
  induction a as [|c a IH]; cbn [String.length append substring].
  - destruct b; reflexivity.
  - now rewrite IH.
Qed.

Lemma dropCR_withCR (l : string) : dropCR (withCR l) = l.
Proof.
  unfold dropCR, withCR, HasSuffix. rewrite length_append. cbn [String.length].
  replace (String.length l + 1 - 1) with (String.length l) by lia.
  change 1 with (String.length (String "013" "")) at 3.
  rewrite (substring_tail l (String "013" "")), String.eqb_refl.
  cbn [String.length].
  replace (1 <=? String.length l + 1)%nat with true
    by (symmetry; apply Nat.leb_le; lia).
  cbn [andb]. apply substring_head.
Qed.

Lemma hasNewline_append (a b : string) :
  hasNewline (a ++ b) = hasNewline a || hasNewline b.
Proof.
  induction a as [|c a IH]; cbn; [reflexivity|].
  now rewrite IH, orb_assoc.
Qed.

Lemma splitLines_pieces (ls : list string) (tail : string) :
  forallb (fun l => negb (hasNewline l)) ls = true ->
  splitLines "" (joinLines ls ++ tail) = (ls ++ splitLines "" tail)%list.
Proof.
  induction ls as [|l ls IH]; cbn [joinLines forallb app]; [reflexivity|].
  intros H. apply andb_true_iff in H as [N H]. apply negb_true_iff in N.
  rewrite !append_assoc, splitLines_line by exact N.
  cbn [append]. now rewrite IH.
Qed.

Lemma splitLines_last (l cur : string) :
  hasNewline l = false -> splitLines cur l = emit (cur ++ l).
Proof.
  revert cur; induction l as [|c l IH]; intros cur H; cbn in *.
  - now rewrite append_empty_r.
  - apply orb_false_iff in H as [Hc Hl]. rewrite Hc, IH by exact Hl.
    now rewrite snoc_append.
Qed.

Lemma isLine_parts (l : string) :
  isLine l = true ->
  hasNewline l = false
  /\ HasSuffix l (String "013" "") = false
  /\ (N.of_nat (String.length l) < MaxScanTokenSize)%N.
Proof.
  unfold isLine. intros H. apply andb_true_iff in H as [H S].
  apply andb_true_iff in H as [N C].
  apply negb_true_iff in N, C. apply N.ltb_lt in S. auto.
Qed.

Lemma scanTokens_app (ls pieces : list string) (e : option error) :
  forallb isLine ls = true ->
  scanTokens (ls ++ pieces) e
  = (let (ts, e') := scanTokens pieces e in ((ls ++ ts)%list, e')).
Proof.
  induction ls as [|l ls IH]; cbn [forallb app scanTokens].
  - intros _. now destruct (scanTokens pieces e).
  - intros H. apply andb_true_iff in H as [L H].
    destruct (isLine_parts l L) as (_ & C & S).
    destruct (N.leb_spec MaxScanTokenSize (N.of_nat (String.length l)));
      [lia|].
    rewrite (IH H). destruct (scanTokens pieces e).
    unfold dropCR. now rewrite C.
Qed.

Lemma forallb_isLine_newline (ls : list string) :
  forallb isLine ls = true ->
  forallb (fun l => negb (hasNewline l)) ls = true.
Proof.
  induction ls as [|l ls IH]; cbn; [reflexivity|].
  intros H. apply andb_true_iff in H as [L H].
  destruct (isLine_parts l L) as (N & _). now rewrite N, IH.
Qed.

(** X12.  Line endings: a script with CRLF line endings parses as the same
    script with LF line endings. *)
Theorem CRLF_script_parses_as_LF (sep : string) (ls : list string) :
  forallb isLine ls = true ->
  forallb (fun l => N.of_nat (String.length l) + 1 <? MaxScanTokenSize)%N ls
  = true ->
  ParseMigration sep (NewReader (joinLines (map withCR ls)))
  = ParseMigration sep (NewReader (joinLines ls)).
Proof.
  intros L S.
  assert (E : ScanLines (NewReader (joinLines (map withCR ls)))
              = (ls, None)).
  { unfold ScanLines. cbn [contents readError NewReader option_map].
    rewrite <- (append_empty_r (joinLines (map withCR ls))).
    rewrite splitLines_pieces.
    - cbn [splitLines emit]. rewrite app_nil_r. clear L.
      induction ls as [|l ls IH]; cbn [map scanTokens forallb] in *;
        [reflexivity|].
      apply andb_true_iff in S as [S1 S2]. apply N.ltb_lt in S1.
      unfold withCR at 1. rewrite length_append. cbn [String.length].
      destruct (N.leb_spec MaxScanTokenSize
                  (N.of_nat (String.length l + 1))); [lia|].
      rewrite (IH S2). now rewrite dropCR_withCR.
    - apply forallb_isLine_newline in L. clear S.
      induction ls as [|l ls IH]; cbn [map forallb] in *; [reflexivity|].
      apply andb_true_iff in L as [N L]. apply negb_true_iff in N.
      unfold withCR at 1. rewrite hasNewline_append, N. cbn. now apply IH. }
  unfold ParseMigration at 1. cbn [seekError NewReader]. rewrite E.
  now rewrite (ParseMigration_joinLines sep _ L).
Qed.

(** X13.  The newline after the last line is optional: a script whose last
    line, not empty, lacks its newline parses as the script with it. *)
Theorem final_newline_optional (sep : string) (ls : list string)
  (l : string) :
  forallb isLine (ls ++ [l]) = true -> l <> "" ->
  ParseMigration sep (NewReader (joinLines ls ++ l))
  = ParseMigration sep (NewReader (joinLines (ls ++ [l]))).
Proof.
  intros L N. rewrite (ParseMigration_joinLines sep _ L).
  assert (E : ScanLines (NewReader (joinLines ls ++ l))
              = ((ls ++ [l])%list, None)).
  { unfold ScanLines. cbn [contents readError NewReader option_map].
    rewrite forallb_app in L. apply andb_true_iff in L as [L1 L2].
    rewrite splitLines_pieces by now apply forallb_isLine_newline.
    cbn [forallb] in L2. rewrite andb_true_r in L2.
    destruct (isLine_parts l L2) as (H & _).
    rewrite (splitLines_last l "" H). cbn [append].
    assert (X : emit l = [l]) by (destruct l; [congruence | reflexivity]).
    rewrite X, scanTokens_lines; [reflexivity|].
    apply Forall_forall. apply forallb_forall.
    rewrite forallb_app, L1. cbn. now rewrite L2. }
  unfold ParseMigration. cbn [seekError NewReader]. now rewrite E.
Qed.

(** X14.  Bounds: when the lines before it parse, a line of 65536 bytes or
    more ends the call with the scanner's "token too long" error, whatever
    follows it. *)
Theorem long_line_is_too_long (sep : string) (before rest : list string)
  (long : string) (st : state) :
  forallb isLine before = true ->
  processLines sep initialState before = Ok st ->
  hasNewline long = false ->
  (MaxScanTokenSize <= N.of_nat (String.length long))%N ->
  ParseMigration sep (NewReader (joinLines (before ++ long :: rest)))
  = Err ErrTooLong.
Proof.
  intros L B N S.
  assert (E : ScanLines (NewReader (joinLines (before ++ long :: rest)))
              = (before, Some ErrTooLong)).
  { unfold ScanLines. cbn [contents readError NewReader option_map].
    assert (J : joinLines (before ++ long :: rest)
                = joinLines before ++ long ++ newline ++ joinLines rest).
    { clear. induction before as [|l ls IH]; cbn [joinLines app append];
        [reflexivity|]. now rewrite IH, !append_assoc. }
    rewrite J, splitLines_pieces by now apply forallb_isLine_newline.
    rewrite (splitLines_line long "" _ N). cbn [append].
    rewrite (scanTokens_app before _ None L). cbn [scanTokens].
    apply N.leb_le in S. rewrite S. now rewrite app_nil_r. }
  unfold ParseMigration. cbn [seekError NewReader]. now rewrite E, B.
Qed.

Lemma scanTokens_atEnd (pieces : list string) (e : error) :
  snd (scanTokens pieces (Some e)) <> None.
Proof.
  induction pieces as [|l pieces IH]; cbn [scanTokens]; [discriminate|].
  destruct (_ <=? _)%N; [discriminate|].
  now destruct (scanTokens pieces (Some e)).
Qed.

(** X15.  A stream that cannot be rewound or that ends in a read error never
    yields a document: a failed Seek is returned as it is, and after a read
    error the call returns an error. *)
Theorem stream_error_yields_no_document (sep : string) (r : ReadSeeker)
  (message : string) :
  (seekError r = Some message ->
   ParseMigration sep r = Err (ErrStream message))
  /\ (readError r = Some message ->
      exists e, ParseMigration sep r = Err e).
Proof.
  split; intros H.
  - unfold ParseMigration. now rewrite H.
  - destruct (ParseMigration sep r) as [doc|e|m] eqn:P.
    + exfalso. unfold ParseMigration, ScanLines in P.
      destruct (seekError r); [discriminate|]. rewrite H in P.
      cbn [option_map] in P.
      pose proof (scanTokens_atEnd (splitLines "" (contents r))
                    (ErrStream message)) as A.
      destruct (scanTokens _ _) as [lines scanErr].
      destruct (processLines sep initialState lines); try discriminate.
      cbn [bind] in P. destruct scanErr; [discriminate|]. now cbn in A.
    + eauto.
    + now apply ParseMigration_no_panic in P.
Qed.

(** ** Further properties: words, commands and boundaries *)

Lemma wordsFrom_nonempty (s : string) (k : nat) (w : string) :
  Forall (fun x => x <> "") (wordsFrom k w s).
Proof.
  revert k w; induction s as [|c s IH]; intros k w; cbn [wordsFrom].
  - destruct w; cbn; repeat constructor. discriminate.
  - destruct k; [|apply IH].
    destruct (spaceWidth (String c s)); [apply IH|].
    apply Forall_app. split; [|apply IH].
    destruct w; cbn; repeat constructor. discriminate.
Qed.

Lemma wordsFrom_allSpace (s : string) (k : nat) :
  wordsFrom k "" s = [] <-> allSpaceFrom k s = true.
Proof.
  revert k; induction s as [|c s IH]; intros k;
    cbn [wordsFrom allSpaceFrom].
  - cbn. tauto.
  - destruct k; [|apply IH].
    destruct (spaceWidth (String c s)) eqn:W.
    + split; [|discriminate]. intros H.
      destruct (wordsFrom_first s (snoc "" c)) as (w' & rest & E);
        [discriminate|]. congruence.
    + cbn [emit app]. apply IH.
Qed.

Lemma spaceWidth_before_space (s b : string) :
  s <> "" -> spaceWidth (s ++ String " " b) = spaceWidth s.
Proof.
  intros N. destruct s as [|c0 s]; [congruence|]. clear N.
  cbn [append]. unfold spaceWidth.
  destruct (isAsciiSpace c0); [reflexivity|].
  destruct (N_of_ascii c0 =? 194)%N.
  { destruct s; reflexivity. }
  destruct ((N_of_ascii c0 =? 225) || (N_of_ascii c0 =? 226)
            || (N_of_ascii c0 =? 227))%N; [|reflexivity].
  destruct s as [|c1 s]; cbn [append].
  - destruct b; [reflexivity|]. unfold isSpace3. cbn.
    now rewrite !andb_false_r.
  - destruct s as [|c2 s]; cbn [append]; [|reflexivity].
    unfold isSpace3. cbn. now rewrite !andb_false_r.
Qed.

Lemma spaceWidth_bound (s : string) (k : nat) :
  spaceWidth s = S k -> k < String.length s.
Proof.
  unfold spaceWidth. destruct s as [|c0 s]; [discriminate|].
  destruct (isAsciiSpace c0); [intros [= <-]; cbn; lia|].
  destruct (N_of_ascii c0 =? 194)%N.
  { destruct s as [|c1 s]; [discriminate|].
    destruct (_ || _); [|discriminate]. intros [= <-]. cbn. lia. }
  destruct (_ || _); [|discriminate].
  destruct s as [|c1 [|c2 s]]; try discriminate.
  destruct (isSpace3 _ _ _); [|discriminate]. intros [= <-]. cbn. lia.
Qed.

Lemma wordsFrom_before_space (a b : string) (k : nat) (w : string) :
  k <= String.length a ->
  wordsFrom k w (a ++ String " " b)
  = (wordsFrom k w a ++ wordsFrom 0 "" b)%list.
Proof.
  revert k w; induction a as [|c a IH]; intros k w K.
  - cbn in K. assert (k = 0) as -> by lia. reflexivity.
  - cbn [append wordsFrom]. destruct k as [|k].
    + change (String c (a ++ String " " b))
        with (String c a ++ String " " b).
      rewrite spaceWidth_before_space by discriminate.
      destruct (spaceWidth (String c a)) as [|j] eqn:W.
      * apply IH. lia.
      * apply spaceWidth_bound in W. cbn in W.
        rewrite IH by lia. now rewrite app_assoc.
    + apply IH. cbn in K. lia.
Qed.

Lemma Fields_before_space (a b : string) :
  Fields (a ++ String " " b) = (Fields a ++ Fields b)%list.
Proof. apply wordsFrom_before_space. lia. Qed.

Lemma lastCodeWord_comment (a rest : list string) (prev w : string) :
  HasPrefix w "--" = true ->
  lastCodeWord prev (a ++ w :: rest) = lastCodeWord prev a.
Proof.
  intros H. revert prev; induction a as [|x a IH]; intros prev;
    cbn [app lastCodeWord].
  - now rewrite H.
  - destruct (HasPrefix x "--"); [reflexivity | apply IH].
Qed.

Lemma wordsFrom_word (w cur : string) :
  hasSpace w = false -> wordsFrom 0 cur w = emit (cur ++ w).
Proof.
  revert cur; induction w as [|c w IH]; intros cur H.
  - cbn. now rewrite append_empty_r.
  - cbn [hasSpace] in H. apply orb_false_iff in H as [W H].
    cbn [wordsFrom]. destruct (spaceWidth (String c w)); [|discriminate].
    rewrite (IH _ H). now rewrite snoc_append.
Qed.

Lemma Fields_joinWords (ws : list string) :
  forallb isWord ws = true -> Fields (joinWords ws) = ws.
Proof.
  induction ws as [|w ws IH]; [reflexivity|].
  cbn [forallb]. intros H. apply andb_true_iff in H as [W H].
  unfold isWord in W. apply andb_true_iff in W as [N S].
  apply negb_true_iff in N, S. apply String.eqb_neq in N.
  assert (F : Fields w = [w]).
  { unfold Fields. rewrite (wordsFrom_word w "" S). cbn [append].
    destruct w; [congruence | reflexivity]. }
  destruct ws as [|w' ws]; [exact F|].
  change (joinWords (w :: w' :: ws))
    with (w ++ String " " (joinWords (w' :: ws))).
  now rewrite Fields_before_space, F, (IH H).
Qed.

(** X16.  An annotation line that holds nothing but white space after the
    command prefix, reached without an earlier error, fails the whole parse
    with "incomplete migration command". *)
Theorem bare_prefix_is_malformed (sep : string) (before rest : list string)
  (l : string) (st : state) :
  forallb isLine (before ++ l :: rest) = true ->
  processLines sep initialState before = Ok st ->
  isAnnotation l = true ->
  allSpaceFrom 0 (sliceFrom (String.length sqlCmdPrefix) l) = true ->
  ParseMigration sep (NewReader (joinLines (before ++ l :: rest)))
  = Err ErrMalformedCommand.
Proof.
  intros L B A S. apply (first_error sep _ _ _ st _ L B).
  unfold processLine, applyCommand, parseCommand.
  rewrite (isAnnotation_plus l A), andb_false_r.
  unfold isAnnotation in A. rewrite A. cbn [negb].
  apply wordsFrom_allSpace in S. unfold Fields. now rewrite S.
Qed.

(** X17.  The contract of parseCommand: it fails with "not a sql-migrate
    command" exactly on the lines without the command prefix, and with
    "incomplete migration command" exactly on the lines with the prefix and
    only white space after it; otherwise the command name and the options
    are the fields of the rest of the line, the name first, none of them
    empty. *)
Theorem parseCommand_contract (l : string) :
  let rest := sliceFrom (String.length sqlCmdPrefix) l in
  (parseCommand l = Err ErrNotCommand <-> isAnnotation l = false)
  /\ (parseCommand l = Err ErrMalformedCommand
      <-> isAnnotation l = true /\ allSpaceFrom 0 rest = true)
  /\ (forall cmd,
        parseCommand l = Ok cmd <->
        isAnnotation l = true
        /\ (Command cmd :: Options cmd)%list = Fields rest)
  /\ (forall cmd,
        parseCommand l = Ok cmd ->
        Command cmd <> ""
        /\ Forall (fun option => option <> "") (Options cmd)).
Proof.
  intros rest. unfold parseCommand, isAnnotation. fold rest.
  pose proof (wordsFrom_nonempty rest 0 "") as NE. fold (Fields rest) in NE.
  pose proof (wordsFrom_allSpace rest 0) as AS. fold (Fields rest) in AS.
  destruct (HasPrefix l sqlCmdPrefix); cbn [negb].
  - destruct (Fields rest) as [|name options] eqn:F.
    + assert (A : allSpaceFrom 0 rest = true) by now apply AS.
      repeat split; intros; try discriminate; try tauto;
        repeat match goal with
               | H : _ /\ _ |- _ => destruct H
               end; discriminate.
    + assert (A : allSpaceFrom 0 rest = false).
      { destruct (allSpaceFrom 0 rest); [|reflexivity].
        now specialize (proj2 AS eq_refl). }
      inversion NE as [|x xs N1 N2]; subst.
      repeat split; intros;
        repeat match goal with
               | H : _ /\ _ |- _ => destruct H
               | H : Ok _ = Ok _ |- _ => inversion H; subst; clear H
               end; try discriminate; try congruence; cbn; auto.
      destruct cmd as [c o]. cbn in *. congruence.
  - repeat split; intros;
      repeat match goal with
             | H : _ /\ _ |- _ => destruct H
             end; try discriminate; try tauto.
Qed.

(** X18.  Round trip of parseCommand: the command prefix followed by a name
    and options, words separated by one space, parses to that name and those
    options. *)
Theorem parseCommand_round_trip (name : string) (options : list string) :
  forallb isWord (name :: options) = true ->
  parseCommand (sqlCmdPrefix ++ joinWords (name :: options))
  = Ok {| Command := name; Options := options |}.
Proof.
  intros W. unfold parseCommand.
  rewrite HasPrefix_append. cbn [negb].
  change (sliceFrom (String.length sqlCmdPrefix)
            (sqlCmdPrefix ++ joinWords (name :: options)))
    with (joinWords (name :: options)).
  now rewrite (Fields_joinWords _ W).
Qed.

(** X19.  HasOption finds an option exactly when the command carries it. *)
Theorem HasOption_In (c : migrateCommand) (opt : string) :
  HasOption c opt = true <-> In opt (Options c).
Proof.
  unfold HasOption. induction (Options c) as [|o os IH]; cbn.
  - split; [discriminate | tauto].
  - destruct (String.eqb_spec o opt) as [->|N].
    + split; auto.
    + rewrite IH. split; [auto | intros [E|I]; [congruence | exact I]].
Qed.

(** X20.  A line of white space only, the empty line among them, never
    ends a statement for endsWithSemicolon. *)
Theorem blank_line_is_no_boundary (l : string) :
  allSpaceFrom 0 l = true -> endsWithSemicolon l = false.
Proof.
  intros H. apply wordsFrom_allSpace in H.
  unfold endsWithSemicolon, Fields. now rewrite H.
Qed.

(** X21.  endsWithSemicolon does not look into a trailing comment: a line
    followed by a space and a comment that starts with a double dash ends a
    statement exactly when the line alone does, whatever the comment
    holds. *)
Theorem trailing_comment_ignored (l comment : string) :
  HasPrefix comment "--" = true ->
  endsWithSemicolon (l ++ String " " comment) = endsWithSemicolon l.
Proof.
  intros H. unfold endsWithSemicolon. rewrite Fields_before_space.
  apply HasPrefix_split in H as [r ->].
  unfold Fields at 2. cbn [append wordsFrom spaceWidth].
  cbn. destruct (wordsFrom_first r "--") as (w' & rest & E); [discriminate|].
  rewrite E. now rewrite lastCodeWord_comment.
Qed.

(** ** Further properties: the document *)

Section Counting.

Variable sep : string.

Lemma handleCommand_statements (st st1 : state) (cmd : migrateCommand) :
  handleCommand sep st cmd = Ok st1 ->
  UpStatements (p st1) = UpStatements (p st)
  /\ DownStatements (p st1) = DownStatements (p st).
Proof.
  unfold handleCommand. intros H.
  repeat match type of H with
         | context [if ?b then _ else _] => destruct b
         | context [match currentDirection ?s with _ => _ end] =>
             destruct (currentDirection s)
         end; inversion H; subst; split; reflexivity.
Qed.

Lemma processLine_blockCount (st st' : state) (l : string) :
  processLine sep st l = Ok st' ->
  blockCount (p st') <= S (blockCount (p st)).
Proof.
  unfold processLine. destruct (_ && _).
  { intros [= <-]. lia. }
  assert (A : forall st1, applyCommand sep st l = Ok st1 ->
                blockCount (p st1) = blockCount (p st)).
  { intros st1. unfold applyCommand. destruct (HasPrefix l sqlCmdPrefix).
    - destruct (parseCommand l) as [cmd| |]; try discriminate. cbn [bind].
      intros H. apply handleCommand_statements in H as [U W].
      unfold blockCount. now rewrite U, W.
    - now intros [= <-]. }
  destruct (applyCommand sep st l) as [st1| |]; try discriminate.
  cbn [bind]. specialize (A st1 eq_refl).
  destruct (accumulate_flags sep st1 l) as (_ & _ & _ & _ & _ & P).
  assert (C : forall b, conclude (accumulate sep st1 l) l b = Ok st' ->
                blockCount (p st') <= S (blockCount (p st))).
  { intros b. unfold conclude. destruct (_ || _).
    - cbn. rewrite P. destruct (currentDirection _); try discriminate;
        intros [= <-]; unfold blockCount in *; cbn;
        rewrite ?length_app; cbn; lia.
    - intros [= <-]. rewrite P. lia. }
  destruct (currentDirection st1); [intros [= <-]; lia | |]; apply C.
Qed.

Lemma processLines_blockCount (ls : list string) (st st' : state) :
  processLines sep st ls = Ok st' ->
  blockCount (p st') <= blockCount (p st) + List.length ls.
Proof.
  revert st; induction ls as [|l ls IH]; intros st; cbn [processLines].
  - intros [= <-]. cbn. lia.
  - destruct (processLine sep st l) as [st1| |] eqn:E; try discriminate.
    cbn [bind]. intros H. apply IH in H.
    apply processLine_blockCount in E. cbn [List.length]. lia.
Qed.

Lemma separator_line (d : migrationDirection) (doc : ParsedMigration)
  (buf : string) :
  d <> directionNone -> sep <> "" ->
  isAnnotation sep = false -> isPlainComment sep = false ->
  processLine sep (gathering d doc buf) sep
  = Ok (gathering d (appendTo d doc (mkStatement buf false "")) "").
Proof.
  intros D N A C. rewrite (processLine_text sep _ _ A C).
  assert (S : isLineSeparator sep (gathering d doc buf) sep = true).
  { unfold isLineSeparator. cbn. rewrite String.eqb_refl.
    destruct sep; [congruence | reflexivity]. }
  rewrite (accumulate_left_out sep (gathering d doc buf) sep eq_refl
             (or_intror S)).
  unfold conclude. rewrite S, orb_true_r.
  destruct d; [congruence | |]; reflexivity.
Qed.

Lemma separated_run (d : migrationDirection)
  (groups : list (list string)) (doc : ParsedMigration)
  (rest : list string) :
  d <> directionNone -> sep <> "" ->
  isAnnotation sep = false -> isPlainComment sep = false ->
  forallb (forallb (openLine sep)) groups = true ->
  processLines sep (gathering d doc "") (separatedLines sep groups ++ rest)
  = processLines sep
      (gathering d (appendAll d doc (map separated groups)) "") rest.
Proof.
  intros D N A C. revert doc; induction groups as [|g gs IH]; intros doc H.
  - reflexivity.
  - cbn [forallb] in H. apply andb_true_iff in H as [O H].
    unfold separatedLines. cbn [map concat]. rewrite <- !app_assoc.
    rewrite (gather_run sep d doc g _ "" D O). cbn [app processLines append].
    rewrite (separator_line d doc _ D N A C). cbn [bind].
    fold (separatedLines sep gs). now rewrite (IH _ H).
Qed.

End Counting.

(** X22.  A document never holds more blocks than the script has lines:
    each line that the scanner delivers emits at most one block. *)
Theorem blocks_bounded_by_lines (sep : string) (r : ReadSeeker)
  (doc : ParsedMigration) :
  ParseMigration sep r = Ok doc ->
  blockCount doc <= List.length (fst (ScanLines r)).
Proof.
  unfold ParseMigration. destruct (seekError r); [discriminate|].
  destruct (ScanLines r) as [lines scanErr]. cbn [fst].
  destruct (processLines sep initialState lines) as [st| |] eqn:E;
    try discriminate.
  cbn [bind]. destruct scanErr; [discriminate|].
  apply processLines_blockCount in E. cbn in E.
  unfold finalChecks.
  repeat match goal with
         | |- context [if ?b then _ else _] => destruct b
         | |- context [match currentDirection ?s with _ => _ end] =>
             destruct (currentDirection s)
         end; try discriminate; intros [= <-]; exact E.
Qed.

(** X23.  With a line separator configured (not itself an annotation or a
    plain comment), a section of statements that are each ended by the
    separator line instead of a semicolon parses to one block per separator
    line, in order; the text of a block is the lines before its separator
    line, the separator left out, and it is empty when nothing stands
    between two separator lines. *)
Theorem separator_terminated_statements (sep : string)
  (d : migrationDirection) (dirLine : string) (dirCmd : migrateCommand)
  (groups : list (list string)) :
  forallb isLine (dirLine :: separatedLines sep groups) = true ->
  d <> directionNone ->
  parseCommand dirLine = Ok dirCmd -> Command dirCmd = directionName d ->
  sep <> "" -> isAnnotation sep = false -> isPlainComment sep = false ->
  forallb (forallb (openLine sep)) groups = true ->
  exists doc,
    ParseMigration sep
      (NewReader (joinLines (dirLine :: separatedLines sep groups)))
    = Ok doc
    /\ statementsOf d doc = map separated groups
    /\ statementsOf (opposite d) doc = [].
Proof.
  intros L D H N S A C O. eexists.
  assert (M : matchesSeparator sep dirLine = false).
  { unfold matchesSeparator. destruct (String.eqb_spec dirLine sep) as [->|];
      [|apply andb_false_r].
    apply parseCommand_annotation in H. congruence. }
  rewrite (ParseMigration_joinLines sep _ L). cbn [processLines].
  change initialState with (gathering directionUp (p initialState) "").
  rewrite (direction_line sep d directionUp _ _ _ H N D M). cbn [bind].
  rewrite <- (app_nil_r (separatedLines sep groups)).
  rewrite (separated_run sep d groups _ [] D S A C O).
  cbn [processLines bind]. rewrite (finalChecks_gathering sep _ _ D).
  split; [reflexivity|].
  destruct (appendAll_statements d (withOptions d dirCmd (p initialState))
              (map separated groups) D) as (-> & -> & _).
  rewrite !withOptions_statements.
  destruct d; [congruence | |]; split; reflexivity.
Qed.

(** ** The further properties on example scripts *)

(** X2 inside an open conditional. *)
Lemma flags_nest_example :
  statementEnded MoreExamples.openConditional = false
  /\ (isLoop MoreExamples.openConditional = true ->
      ignoreSemicolons MoreExamples.openConditional = true)
  /\ (isConditional MoreExamples.openConditional = true ->
      isLoop MoreExamples.openConditional = true).
Proof.
  exact (flags_nest ""
           [Examples.up; Examples.loopBegin; Examples.conditionalBegin]
           MoreExamples.openConditional eq_refl).
Defined.

(** X3 on a statement without its semicolon. *)
Lemma ParseMigration_errors_example :
  (exists message, ErrUnterminatedStatement "" = ErrStream message)
  \/ annotationError "" (ErrUnterminatedStatement "")
  \/ ErrUnterminatedStatement "" = ErrUnterminatedStatementBlock
  \/ ErrUnterminatedStatement "" = ErrUnterminatedStatement "".
Proof.
  exact (ParseMigration_errors ""
           (NewReader (joinLines Examples.openScript))
           (ErrUnterminatedStatement "") eq_refl).
Defined.

(** X4 on a loop that is never closed. *)
Lemma open_block_at_end_of_input_example :
  ParseMigration ""
    (NewReader (joinLines [Examples.up; Examples.loopBegin; "SELECT 1;"]))
  = Err ErrUnterminatedStatementBlock.
Proof.
  apply (open_block_at_end_of_input "" directionUp Examples.up
           Examples.loopBegin (Examples.command "Up")
           (Examples.command "LoopBegin") [] ["SELECT 1;"]);
    try reflexivity; try discriminate. right; reflexivity.
Defined.

(** X5 right after the Up line. *)
Lemma ConditionalBegin_outside_loop_example :
  ParseMigration ""
    (NewReader
       (joinLines [Examples.up; Examples.conditionalBegin; "SELECT 1;"]))
  = Err ErrConditionalOutsideLoop.
Proof.
  apply (ConditionalBegin_outside_loop "" [Examples.up] ["SELECT 1;"]
           Examples.conditionalBegin (Examples.command "ConditionalBegin")
           (gathering directionUp (p initialState) ""));
    reflexivity.
Defined.

(** X6 on a statement block inside a loop. *)
Lemma blocks_do_not_nest_example :
  ParseMigration ""
    (NewReader
       (joinLines [Examples.up; Examples.loopBegin;
                   Examples.statementBegin; "SELECT 1;"]))
  = Err ErrNestedStatementBlock.
Proof.
  apply (blocks_do_not_nest "" [Examples.up; Examples.loopBegin]
           ["SELECT 1;"] Examples.statementBegin
           (Examples.command "StatementBegin") MoreExamples.openLoop);
    reflexivity.
Defined.

(** X7 on a loop closed before its conditional. *)
Lemma LoopEnd_with_open_conditional_example :
  ParseMigration ""
    (NewReader
       (joinLines [Examples.up; Examples.loopBegin;
                   Examples.conditionalBegin; Examples.loopEnd]))
  = Err ErrUnclosedConditional.
Proof.
  apply (LoopEnd_with_open_conditional ""
           [Examples.up; Examples.loopBegin; Examples.conditionalBegin] []
           Examples.loopEnd (Examples.command "LoopEnd")
           MoreExamples.openConditional);
    reflexivity.
Defined.

(** X8 on a Down line after a statement without its semicolon. *)
Lemma direction_switch_mid_statement_example :
  ParseMigration ""
    (NewReader
       (joinLines [Examples.up; "SELECT 1"; Examples.down; "SELECT 2;"]))
  = Err (ErrUnterminatedStatement "").
Proof.
  apply (direction_switch_mid_statement "" directionUp directionDown
           Examples.up Examples.down (Examples.command "Up")
           (Examples.command "Down") [] ["SELECT 1"] ["SELECT 2;"]);
    reflexivity || discriminate.
Defined.

(** X9 on an unknown annotation in the middle of a statement. *)
Lemma stray_annotation_ignored_example :
  ParseMigration ""
    (NewReader
       (joinLines [Examples.up; "SELECT 1"; MoreExamples.unknown;
                   "FROM people;"]))
  = ParseMigration ""
      (NewReader (joinLines [Examples.up; "SELECT 1"; "FROM people;"])).
Proof.
  apply (stray_annotation_ignored "" [Examples.up; "SELECT 1"]
           ["FROM people;"] MoreExamples.unknown
           {| Command := "Frobnicate"; Options := ["now"] |}
           (gathering directionUp (p initialState)
              ("SELECT 1" ++ newline)));
    try reflexivity. right; reflexivity.
Defined.

(** X10 on a migration with its way back. *)
Lemma up_then_down_sections_example :
  ParseMigration ""
    (NewReader
       (joinLines
          (Examples.upNoTransaction
             :: scriptLines [Examples.addColumn; Examples.backfill]
             ++ Examples.down :: scriptLines [Examples.dropColumn])))
  = Ok {| UpStatements :=
            map emitted [Examples.addColumn; Examples.backfill];
          DownStatements := map emitted [Examples.dropColumn];
          DisableTransactionUp := true;
          DisableTransactionDown := false |}.
Proof.
  apply (up_then_down_sections "" Examples.upNoTransaction Examples.down
           {| Command := "Up"; Options := ["notransaction"] |}
           (Examples.command "Down")
           [Examples.addColumn; Examples.backfill] [Examples.dropColumn]);
    reflexivity.
Defined.

(** X11 on two statements of one line each. *)
Lemma statement_texts_round_trip_example :
  exists doc,
    ParseMigration ""
      (NewReader
         (joinLines
            (Examples.up
               :: scriptLines [Examples.addColumn; Examples.dropColumn])))
    = Ok doc
    /\ textOf (statementsOf directionUp doc)
       = bodyText (scriptLines [Examples.addColumn; Examples.dropColumn])
    /\ (forallb (fun l => negb (HasPrefix l "-- "))
          (scriptLines [Examples.addColumn; Examples.dropColumn]) = true ->
        textOf (statementsOf directionUp doc)
        = joinLines (scriptLines [Examples.addColumn; Examples.dropColumn])).
Proof.
  apply (statement_texts_round_trip "" directionUp Examples.up
           (Examples.command "Up")
           [Examples.addColumn; Examples.dropColumn]);
    reflexivity || discriminate.
Defined.

(** X12 and X13 on a script of two lines. *)
Lemma CRLF_script_parses_as_LF_example :
  ParseMigration ""
    (NewReader (joinLines (map withCR [Examples.up; "SELECT 1;"])))
  = ParseMigration "" (NewReader (joinLines [Examples.up; "SELECT 1;"])).
Proof.
  apply (CRLF_script_parses_as_LF "" [Examples.up; "SELECT 1;"]);
    reflexivity.
Defined.

Lemma final_newline_optional_example :
  ParseMigration "" (NewReader (joinLines [Examples.up] ++ "SELECT 1;"))
  = ParseMigration ""
      (NewReader (joinLines ([Examples.up] ++ ["SELECT 1;"]))).
Proof.
  apply (final_newline_optional "" [Examples.up] "SELECT 1;");
    reflexivity || discriminate.
Defined.

(** X14 on a line of 65536 bytes after the Up line. *)
Lemma long_line_is_too_long_example :
  ParseMigration ""
    (NewReader
       (joinLines ([Examples.up] ++ MoreExamples.longLine :: ["SELECT 1;"])))
  = Err ErrTooLong.
Proof.
  apply (long_line_is_too_long "" [Examples.up] ["SELECT 1;"]
           MoreExamples.longLine (gathering directionUp (p initialState) ""));
    [reflexivity | reflexivity | vm_compute; reflexivity
    | vm_compute; discriminate].
Defined.

(** X15 on a stream that breaks after a whole statement. *)
Lemma stream_error_yields_no_document_example :
  exists e, ParseMigration "" MoreExamples.brokenStream = Err e.
Proof.
  apply (proj2 (stream_error_yields_no_document ""
                  MoreExamples.brokenStream "unexpected EOF")).
  reflexivity.
Defined.

(** X16 on a bare command prefix after the Up line. *)
Lemma bare_prefix_is_malformed_example :
  ParseMigration ""
    (NewReader
       (joinLines ([Examples.up] ++ MoreExamples.barePrefix :: ["SELECT 1;"])))
  = Err ErrMalformedCommand.
Proof.
  apply (bare_prefix_is_malformed "" [Examples.up] ["SELECT 1;"]
           MoreExamples.barePrefix
           (gathering directionUp (p initialState) ""));
    reflexivity.
Defined.

(** X18 on the Up line with its option. *)
Lemma parseCommand_round_trip_example :
  parseCommand (sqlCmdPrefix ++ joinWords ["Up"; "notransaction"])
  = Ok {| Command := "Up"; Options := ["notransaction"] |}.
Proof.
  apply (parseCommand_round_trip "Up" ["notransaction"]). reflexivity.
Defined.

(** X20 on a line of two spaces. *)
Lemma blank_line_is_no_boundary_example : endsWithSemicolon "  " = false.
Proof. apply (blank_line_is_no_boundary "  "). reflexivity. Defined.

(** X21 on a statement with a comment that ends with a semicolon. *)
Lemma trailing_comment_ignored_example :
  endsWithSemicolon ("SELECT 1" ++ String " " "-- done;")
  = endsWithSemicolon "SELECT 1".
Proof.
  apply (trailing_comment_ignored "SELECT 1" "-- done;"). reflexivity.
Defined.

(** X22 on the short loop script: four lines, one block. *)
Lemma blocks_bounded_by_lines_example :
  blockCount MoreExamples.shortLoopDocument
  <= List.length
       (fst (ScanLines (NewReader (joinLines Examples.shortLoopScript)))).
Proof.
  apply (blocks_bounded_by_lines ""
           (NewReader (joinLines Examples.shortLoopScript))
           MoreExamples.shortLoopDocument).
  reflexivity.
Defined.

(** X23 on three batches ended by [GO], the second empty. *)
Lemma separator_terminated_statements_example :
  exists doc,
    ParseMigration Examples.go
      (NewReader
         (joinLines
            (Examples.up
               :: separatedLines Examples.go MoreExamples.batches)))
    = Ok doc
    /\ statementsOf directionUp doc = map separated MoreExamples.batches
    /\ statementsOf (opposite directionUp) doc = [].
Proof.
  apply (separator_terminated_statements Examples.go directionUp Examples.up
           (Examples.command "Up") MoreExamples.batches);
    reflexivity || discriminate.
Defined.
